(** * Similarity service: normalisation, scoring, fusion and hints

    A shallow embedding of [models/similarity.py], [models/hint.py],
    [config.py] and the request handler of [main.py].

    Conventions of the embedding.
    - A Python [str] is a list of Unicode code points ([pystr]).
    - A Python [float] is the rational number it denotes ([Q]); float
      literals are read as the decimal they are written as, and arithmetic
      is exact.  Comparisons and the branch structure are those of the code.
      This reading serves the properties of order and of range.  The values
      that the fusion returns are those of the module [Binary64], which
      performs lines 272 to 296 on IEEE 754 doubles with the [round] of the
      interpreter; the two readings part at decimal ties.
    - A Python [dict] whose iteration order is observable is an association
      list in insertion order; a [dict] that is only looked up is a [gmap].
    - A computation that may raise, or that calls one of the two models, lives
      in the monad [Eff], which threads the log of model calls. *)

From Stdlib Require Import Ascii String QArith Qround Lqa.
From Corelib Require PrimFloat FloatOps SpecFloat FloatAxioms Uint63Axioms.
From stdpp Require Import gmap list sorting.

Local Open Scope Z_scope.

(** ** Python strings *)

Abbreviation pystr := (list N).

Module PyStr.

(** Code points of a UTF-8 byte sequence; used only to write the string
    literals of the source. *)
Fixpoint utf8 (bs : list N) : list N :=
  match bs with
  | [] => []
  | b :: r0 =>
    if (b <? 0x80)%N then b :: utf8 r0
    else if (b <? 0xE0)%N then
      match r0 with
      | b1 :: r1 => ((b - 0xC0) * 64 + (b1 - 0x80))%N :: utf8 r1
      | _ => []
      end
    else if (b <? 0xF0)%N then
      match r0 with
      | b1 :: b2 :: r2 =>
        ((b - 0xE0) * 4096 + (b1 - 0x80) * 64 + (b2 - 0x80))%N :: utf8 r2
      | _ => []
      end
    else
      match r0 with
      | b1 :: b2 :: b3 :: r3 =>
        ((b - 0xF0) * 262144 + (b1 - 0x80) * 4096
         + (b2 - 0x80) * 64 + (b3 - 0x80))%N :: utf8 r3
      | _ => []
      end
  end.

Definition py (s : string) : pystr :=
  utf8 (map N_of_ascii (list_ascii_of_string s)).

(** Truthiness of a string: [if s:] holds for the non-empty ones. *)
Definition truthy (s : pystr) : bool :=
  match s with [] => false | _ :: _ => true end.

Fixpoint starts_with (p s : pystr) : bool :=
  match p, s with
  | [], _ => true
  | _ :: _, [] => false
  | a :: p', b :: s' => (a =? b)%N && starts_with p' s'
  end.

(** [s.replace(old, new)] for a non-empty [old]: occurrences are found left
    to right and do not overlap.  [skip] counts the characters of a matched
    occurrence still to be passed over. *)
Fixpoint replace_from (skip : nat) (old new s : pystr) : pystr :=
  match s with
  | [] => []
  | c :: s' =>
    match skip with
    | S k => replace_from k old new s'
    | O =>
      if starts_with old s
      then new ++ replace_from (pred (length old)) old new s'
      else c :: replace_from 0 old new s'
    end
  end.

Definition replace (old new s : pystr) : pystr := replace_from 0 old new s.

End PyStr.

Import PyStr.

(** ** The Unicode tables of the Python runtime

    [str.lower], the whitespace test shared by [str.strip] and the [\s] of
    [re], and the word test [\w] of [re] on [str] patterns (alphanumeric in
    any script, or underscore) belong to the interpreter, not to the
    repository: they are an interface here. *)

Class Unicode := {
  str_lower : pystr → pystr;
  isspace : N → bool;
  isword : N → bool;
  str_lower_nil : str_lower [] = []
}.

(** The range [가-힣] of the character class, U+AC00 to U+D7A3. *)
Definition hangul_syllable (c : N) : bool :=
  ((0xAC00 <=? c) && (c <=? 0xD7A3))%N.

(** The ASCII word characters [[A-Za-z0-9_]]. *)
Definition ascii_word (c : N) : bool :=
  (((0x30 <=? c) && (c <=? 0x39)) || ((0x41 <=? c) && (c <=? 0x5A))
   || (c =? 0x5F) || ((0x61 <=? c) && (c <=? 0x7A)))%N.

Module Latin1.

(** The tables of CPython restricted to Basic Latin, the Latin-1 Supplement
    and the Hangul Syllables block; a code point outside these blocks is
    taken as a caseless symbol. *)

Definition lower_cp (c : N) : N :=
  if (((0x41 <=? c) && (c <=? 0x5A))
      || ((0xC0 <=? c) && (c <=? 0xDE) && negb (c =? 0xD7)))%N
  then (c + 32)%N else c.

Definition space_cp (c : N) : bool :=
  (((0x09 <=? c) && (c <=? 0x0D)) || ((0x1C <=? c) && (c <=? 0x20))
   || (c =? 0x85) || (c =? 0xA0))%N.

Definition word_cp (c : N) : bool :=
  (ascii_word c
   || (c =? 0xAA) || (c =? 0xB2) || (c =? 0xB3) || (c =? 0xB5)
   || (c =? 0xB9) || (c =? 0xBA) || ((0xBC <=? c) && (c <=? 0xBE))
   || ((0xC0 <=? c) && (c <=? 0xFF) && negb (c =? 0xD7) && negb (c =? 0xF7))
   || hangul_syllable c)%N.

#[export] Instance tables : Unicode := {|
  str_lower := map lower_cp;
  isspace := space_cp;
  isword := word_cp;
  str_lower_nil := eq_refl
|}.

End Latin1.

(** ** TextNormalizer: [SimilarityCalculator.normalize_text] *)

Module Normalizer.
Section WithTables.
Context {U : Unicode}.

(** [re.sub(pattern, '', text)] where [pattern] is a character class [cls],
    or a run [cls+] of it: every character of the class disappears. *)
Fixpoint re_sub_delete (cls : N → bool) (text : pystr) : pystr :=
  match text with
  | [] => []
  | c :: rest =>
    if cls c then re_sub_delete cls rest else c :: re_sub_delete cls rest
  end.

Fixpoint lstrip (text : pystr) : pystr :=
  match text with
  | [] => []
  | c :: rest => if isspace c then lstrip rest else text
  end.

Definition rstrip (text : pystr) : pystr := rev (lstrip (rev text)).

(** [text.strip()] *)
Definition strip (text : pystr) : pystr := rstrip (lstrip text).

(** The negated class [[^\w\s가-힣]]. *)
Definition special (c : N) : bool :=
  negb (isword c || isspace c || hangul_syllable c).

Definition normalize_text (text : pystr) : pystr :=
  let text := str_lower text in
  let text := re_sub_delete isspace text in
  let text := re_sub_delete special text in
  strip text.

(** The normaliser as the specification words it: lowercase, delete the
    whitespace, delete what is neither an ASCII word character nor a Hangul
    syllable. *)
Definition normalize_spec (text : pystr) : pystr :=
  let text := str_lower text in
  let text := List.filter (λ c, negb (isspace c)) text in
  List.filter (λ c, ascii_word c || hangul_syllable c) text.

(** The same three steps with the word test of the regular expression
    engine in place of the ASCII one. *)
Definition normalize_steps (text : pystr) : pystr :=
  let text := str_lower text in
  let text := List.filter (λ c, negb (isspace c)) text in
  List.filter (λ c, isword c || hangul_syllable c) text.

End WithTables.
End Normalizer.

Import Normalizer.

(** ** Numbers *)

Module PyNum.

Definition Qltb (x y : Q) : bool := negb (Qle_bool y x).
Definition Qgtb (x y : Q) : bool := Qltb y x.
Definition Qgeb (x y : Q) : bool := Qle_bool y x.

(** [min(a, b)] and [max(a, b)]: the first argument is kept unless the
    second is strictly better. *)
Definition py_min (a b : Q) : Q := if Qltb b a then b else a.
Definition py_max (a b : Q) : Q := if Qltb a b then b else a.

(** Nearest integer, ties to the even one: the rounding of [round]. *)
Definition round_half_even (q : Q) : Z :=
  let f := Qfloor q in
  match (q - inject_Z f ?= 1 # 2)%Q with
  | Lt => f
  | Gt => f + 1
  | Eq => if Z.even f then f else f + 1
  end.

(** [round(x, ndigits)] *)
Definition py_round (x : Q) (ndigits : nat) : Q :=
  let p := inject_Z (10 ^ Z.of_nat ndigits) in
  (inject_Z (round_half_even (x * p)) / p)%Q.

(** [max(iterable, key=key)]: a later item replaces the running best only
    when its key is strictly greater, so the first maximal item wins. *)
Fixpoint max_by_from {X} (key : X → Q) (best : X) (items : list X) : X :=
  match items with
  | [] => best
  | x :: rest =>
    max_by_from key (if Qltb (key best) (key x) then x else best) rest
  end.

Definition py_max_by {X} (key : X → Q) (items : list X) : option X :=
  match items with
  | [] => None
  | x :: rest => Some (max_by_from key x rest)
  end.

Definition Qsum (xs : list Q) : Q := foldr Qplus 0%Q xs.

(** [np.mean(xs)] of a non-empty list *)
Definition mean (xs : list Q) : Q :=
  (Qsum xs / inject_Z (Z.of_nat (length xs)))%Q.

(** [enumerate(xs)] *)
Fixpoint enumerate_from {X} (i : nat) (xs : list X) : list (nat * X) :=
  match xs with
  | [] => []
  | x :: rest => (i, x) :: enumerate_from (S i) rest
  end.

Definition enumerate {X} (xs : list X) : list (nat * X) := enumerate_from 0 xs.

(** [d[k] = v] on a dictionary kept in insertion order: an existing key keeps
    its place, a new key goes last. *)
Fixpoint dict_set {V} (k : pystr) (v : V) (d : list (pystr * V))
  : list (pystr * V) :=
  match d with
  | [] => [(k, v)]
  | (k', v') :: rest =>
    if bool_decide (k' = k) then (k, v) :: rest
    else (k', v') :: dict_set k v rest
  end.

End PyNum.

Import PyNum.

(** ** FormativeScorer: edit distance over decomposed strings *)

Module Formative.
Section Rows.
Context {A : Type} `{EqDecision A}.

(** One step of the inner loop: the three candidate costs of cell [j + 1] of
    the current row.  A list index out of range raises, hence [option]. *)
Definition cell (c1 : A) (previous_row current_row : list nat)
    (j : nat) (c2 : A) : option nat :=
  p1 ← previous_row !! (j + 1)%nat;
  cj ← current_row !! j;
  p0 ← previous_row !! j;
  let insertions := (p1 + 1)%nat in
  let deletions := (cj + 1)%nat in
  let substitutions := (p0 + (if decide (c1 = c2) then 0 else 1))%nat in
  Some (insertions `min` (deletions `min` substitutions))%nat.

Fixpoint inner_loop (c1 : A) (previous_row : list nat)
    (js : list (nat * A)) (current_row : list nat) : option (list nat) :=
  match js with
  | [] => Some current_row
  | (j, c2) :: rest =>
    v ← cell c1 previous_row current_row j c2;
    inner_loop c1 previous_row rest (current_row ++ [v])
  end.

Fixpoint outer_loop (ics : list (nat * A)) (s2 : list A)
    (previous_row : list nat) : option (list nat) :=
  match ics with
  | [] => Some previous_row
  | (i, c1) :: rest =>
    current_row ← inner_loop c1 previous_row (enumerate s2) [(i + 1)%nat];
    outer_loop rest s2 current_row
  end.

(** The body of [_levenshtein_distance] below its length test. *)
Definition levenshtein_rows (s1 s2 : list A) : option nat :=
  if (length s2 =? 0)%nat then Some (length s1)
  else
    previous_row ← outer_loop (enumerate s1) s2 (seq 0 (length s2 + 1));
    last previous_row.

(** [_levenshtein_distance]: the recursive call swaps the arguments when the
    first is the shorter one; the swapped call cannot swap again. *)
Definition _levenshtein_distance (s1 s2 : list A) : option nat :=
  if (length s1 <? length s2)%nat then levenshtein_rows s2 s1
  else levenshtein_rows s1 s2.

(** The textbook recurrence of the edit distance, on two sequences read from
    their last written element backwards. *)
Fixpoint lev (a : list A) : list A → nat :=
  fix lev_a (b : list A) : nat :=
    match a, b with
    | [], _ => length b
    | _, [] => length a
    | x :: a', y :: b' =>
      (lev a' b + 1) `min`
        ((lev_a b' + 1) `min` (lev a' b' + (if decide (x = y) then 0 else 1)))
    end%nat.

(** Loop invariant: [row] holds, for every [j ≤ k], the distance between the part [ra] of
    the first string read so far and the first [j] elements of [s2]. *)
Definition is_row (ra s2 : list A) (k : nat) (row : list nat) : Prop :=
  length row = S k
  ∧ ∀ j, (j ≤ k)%nat → row !! j = Some (lev ra (rev (take j s2))).

End Rows.

(** [calculate_formative_similarity], given the decomposition [h2j] of the
    jamo package. *)
Definition calculate_formative_similarity (h2j : pystr → pystr)
    (input_text answer : pystr) : option Q :=
  let input_jamo := h2j input_text in
  let answer_jamo := h2j answer in
  distance ← _levenshtein_distance input_jamo answer_jamo;
  let max_len := (length input_jamo `max` length answer_jamo)%nat in
  if (max_len =? 0)%nat then Some 1%Q
  else
    let similarity :=
      (1 - inject_Z (Z.of_nat distance) / inject_Z (Z.of_nat max_len))%Q in
    Some (py_max 0 similarity).

End Formative.

Import Formative.

(** ** External capabilities and effects *)

Inductive label := entailment | neutral | contradiction.

(** What the scorers use and the repository does not define: the embedding
    model, the cosine of two embeddings as numpy computes it, the entailment
    classifier (first result: label and score), [str.format] with the named
    fields [input] and [answer], and the decomposition into jamo.  [None]
    stands for a raised exception. *)
Class External := {
  vec : Type;
  encode : list pystr → option (list vec);
  cosine : vec → vec → Q;
  nli_pipeline : pystr → option (label * Q);
  str_format : pystr → pystr → pystr → option pystr;
  h2j : pystr → pystr
}.

(** A call to one of the two models. *)
Inductive call :=
  | Encode (texts : list pystr)
  | Classify (hypothesis : pystr).

Module Effects.

(** A computation reads the log of model calls made so far and returns its
    result, or [None] when it raised, with the log extended. *)
Definition Eff (A : Type) : Type := list call → option A * list call.

#[export] Instance eff_ret : MRet Eff := λ A a log, (Some a, log).

#[export] Instance eff_bind : MBind Eff := λ A B f m log,
  match m log with
  | (Some a, log') => f a log'
  | (None, log') => (None, log')
  end.

Definition raise {A} : Eff A := λ log, (None, log).

(** [try: body except Exception: handler] *)
Definition try_except {A} (body handler : Eff A) : Eff A := λ log,
  match body log with
  | (Some a, log') => (Some a, log')
  | (None, log') => handler log'
  end.

Definition lift {A} (o : option A) : Eff A :=
  match o with Some a => mret a | None => raise end.

(** [for x in xs: st = body x st] *)
Fixpoint for_each {X S} (xs : list X) (body : X → S → Eff S) (st : S) : Eff S :=
  match xs with
  | [] => mret st
  | x :: rest => st' ← body x st; for_each rest body st'
  end.

Section Calls.
Context {E : External}.

Definition call_encode (texts : list pystr) : Eff (list vec) := λ log,
  (encode texts, log ++ [Encode texts]).

Definition call_nli (hypothesis : pystr) : Eff (label * Q) := λ log,
  (nli_pipeline hypothesis, log ++ [Classify hypothesis]).

End Calls.
End Effects.

Import Effects.

(** ** The scorers, the classifier and the fusion: [SimilarityCalculator] *)

Module Similarity.

Definition k_semantic : pystr := Eval vm_compute in py "semantic".
Definition k_relational : pystr := Eval vm_compute in py "relational".
Definition k_formative : pystr := Eval vm_compute in py "formative".
Definition k_contradiction : pystr := Eval vm_compute in py "contradiction".

(** The fallback relation type, [일반]. *)
Definition general : pystr := Eval vm_compute in py "일반".

(** The dictionary returned by [calculate_combined_similarity]. *)
Record Scores := {
  similarity_score : Q;
  breakdown : gmap pystr Q
}.

Definition make_breakdown (semantic relational formative contradiction : Q)
  : gmap pystr Q :=
  <[k_contradiction := contradiction]>
    (<[k_formative := formative]>
      (<[k_relational := relational]>
        (<[k_semantic := semantic]> ∅))).

Section WithCapabilities.
Context {U : Unicode} {E : External}.

Definition calculate_semantic_similarity (input_text answer : pystr) : Eff Q :=
  embeddings ← call_encode [input_text; answer];
  e0 ← lift (embeddings !! 0%nat);
  e1 ← lift (embeddings !! 1%nat);
  let cosine_sim := cosine e0 e1 in
  let similarity := ((cosine_sim + 1) / 2)%Q in
  mret similarity.

(** Score of one affirmative template. *)
Definition affirmative_score (result : label * Q) : Q :=
  match result.1 with
  | entailment => result.2
  | neutral => (result.2 * 0.5)%Q
  | contradiction => 0%Q
  end.

Definition calculate_relational_similarity (input_text answer : pystr)
    (templates contradiction_templates : list pystr) : Eff (Q * Q) :=
  entailment_scores ←
    for_each templates (λ template scores,
      hypothesis ← lift (str_format template input_text answer);
      result ← call_nli hypothesis;
      mret (scores ++ [affirmative_score result])) [];
  let relation_score :=
    match entailment_scores with [] => 0%Q | _ :: _ => mean entailment_scores end in
  contradiction_scores ←
    for_each contradiction_templates (λ template scores,
      hypothesis ← lift (str_format template input_text answer);
      result ← call_nli hypothesis;
      mret (match result.1 with
            | entailment => scores ++ [result.2]
            | _ => scores
            end)) [];
  let contradiction_score :=
    match contradiction_scores with
    | [] => 0%Q
    | x :: rest => max_by_from id x rest
    end in
  mret (relation_score, contradiction_score).

(** Score of one taxonomy entry once its hypothesis is classified. *)
Definition entailment_only (result : label * Q) : Q :=
  match result.1 with
  | entailment => result.2
  | _ => 0%Q
  end.

(** The body of the loop of [analyze_relationship_type]: the template is
    rendered outside the [try], the classification is inside it. *)
Definition score_entry (input_text answer : pystr)
  : pystr * pystr → list (pystr * Q) → Eff (list (pystr * Q)) :=
  λ '(rel_type, template) relationship_scores,
    hypothesis ← lift (str_format template input_text answer);
    try_except
      (result ← call_nli hypothesis;
       mret (dict_set rel_type (entailment_only result) relationship_scores))
      (mret (dict_set rel_type 0%Q relationship_scores)).

Definition analyze_relationship_type (input_text answer : pystr)
    (relationship_templates : list (pystr * pystr)) : Eff (pystr * Q) :=
  relationship_scores ←
    for_each relationship_templates (score_entry input_text answer) [];
  match relationship_scores with
  | first :: rest =>
    let best_relationship := max_by_from snd first rest in
    mret (best_relationship.1, best_relationship.2)
  | [] => mret (general, 0%Q)
  end.

(** Lines 272 to 296: the weighted sum, the penalty, the clipping and the
    rounding.  [weights[k]] raises on a missing key.  The arithmetic is
    exact here; [Binary64.fuse] is the same body on doubles and gives the
    digits that the program returns. *)
Definition fuse (semantic_score relation_score formative_score
    contradiction_score : Q) (weights : gmap pystr Q) : Eff Scores :=
  w_semantic ← lift (weights !! k_semantic);
  w_relational ← lift (weights !! k_relational);
  w_formative ← lift (weights !! k_formative);
  let weighted_score :=
    (semantic_score * w_semantic + relation_score * w_relational
     + formative_score * w_formative)%Q in
  let weighted_score := (weighted_score - contradiction_score * 0.15)%Q in
  let weighted_score := py_max 0 (py_min 1 weighted_score) in
  let final_score := (weighted_score * 100)%Q in
  mret {| similarity_score := py_round final_score 2;
          breakdown :=
            make_breakdown (py_round semantic_score 4)
              (py_round relation_score 4) (py_round formative_score 4)
              (py_round contradiction_score 4) |}.

(** The fixed result of the exact-match path. *)
Definition exact_match : Scores :=
  {| similarity_score := 100; breakdown := make_breakdown 1 1 1 0 |}.

Definition calculate_combined_similarity (input_text answer : pystr)
    (weights : gmap pystr Q)
    (nli_templates contradiction_templates : list pystr) : Eff Scores :=
  let input_normalized := normalize_text input_text in
  let answer_normalized := normalize_text answer in
  if bool_decide (input_normalized = answer_normalized) then mret exact_match
  else
    semantic_score ← calculate_semantic_similarity input_text answer;
    '(relation_score, contradiction_score) ←
      calculate_relational_similarity input_text answer
        nli_templates contradiction_templates;
    formative_score ←
      lift (calculate_formative_similarity h2j input_normalized answer_normalized);
    fuse semantic_score relation_score formative_score contradiction_score
      weights.

End WithCapabilities.
End Similarity.

Import Similarity.

(** ** HintSelector: [HintGenerator] *)

Module Hint.

Record HintGenerator := {
  hint_thresholds : gmap Z pystr;
  contextual_templates : gmap pystr (gmap pystr pystr);
  detail_suffixes : gmap pystr pystr
}.

Definition lv_high : pystr := Eval vm_compute in py "high".
Definition lv_medium : pystr := Eval vm_compute in py "medium".
Definition lv_low : pystr := Eval vm_compute in py "low".
Definition placeholder : pystr := Eval vm_compute in py "{input}".

(** [정답입니다! 🎉] *)
Definition correct_hint : pystr := Eval vm_compute in py "정답입니다! 🎉".
(** [하지만 반대 의미는 아니에요], the literal of the contradiction branch *)
Definition opposite_hint : pystr :=
  Eval vm_compute in py "하지만 반대 의미는 아니에요".
Definition semantic_default : pystr :=
  Eval vm_compute in py "의미적으로 가까워요".
Definition relational_default : pystr :=
  Eval vm_compute in py "상황이나 맥락은 맞아요".
Definition formative_default : pystr :=
  Eval vm_compute in py "철자가 매우 비슷해요".
Definition k_semantic_high : pystr := Eval vm_compute in py "semantic_high".
Definition k_relational_high : pystr := Eval vm_compute in py "relational_high".
Definition k_formative_high : pystr := Eval vm_compute in py "formative_high".

Section Methods.
Variable self : HintGenerator.

Definition _generate_contextual_hint (user_input : pystr)
    (similarity_score : Q) (relationship_type : option pystr)
    (relationship_confidence : Q) : pystr :=
  match relationship_type with
  | None => []
  | Some relationship_type =>
    if negb (truthy relationship_type) || Qltb relationship_confidence 0.3
    then []
    else if Qltb similarity_score 15 then []
    else
      let templates :=
        default ∅ (contextual_templates self !! relationship_type) in
      if bool_decide (templates = ∅) then []
      else
        let hint_level :=
          if Qgeb relationship_confidence 0.7 && Qgeb similarity_score 50
          then lv_high
          else if Qgeb relationship_confidence 0.5 || Qgeb similarity_score 30
          then lv_medium
          else lv_low in
        let hint_template :=
          default (default [] (templates !! lv_medium))
                  (templates !! hint_level) in
        if negb (truthy hint_template) then []
        else replace placeholder user_input hint_template
  end.

(** [sorted(self.hint_thresholds.keys(), reverse=True)] *)
Definition thresholds_descending : list Z :=
  reverse (merge_sort Z.le (map fst (map_to_list (hint_thresholds self)))).

Fixpoint first_reached (score : Q) (thresholds : list Z) : option Z :=
  match thresholds with
  | [] => None
  | threshold :: rest =>
    if Qgeb score (inject_Z threshold) then Some threshold
    else first_reached score rest
  end.

(** [self.hint_thresholds[k]] raises on a missing key. *)
Definition _get_base_hint (score : Q) : option pystr :=
  match first_reached score thresholds_descending with
  | Some threshold => hint_thresholds self !! threshold
  | None => hint_thresholds self !! 0
  end.

Definition _get_detail_hint (breakdown : gmap pystr Q) (score : Q) : pystr :=
  let semantic := default 0%Q (breakdown !! k_semantic) in
  let relational := default 0%Q (breakdown !! k_relational) in
  let formative := default 0%Q (breakdown !! k_formative) in
  let contradiction := default 0%Q (breakdown !! k_contradiction) in
  if Qgtb contradiction 0.6 then opposite_hint
  else if Qltb score 20 then []
  else
    let max_component :=
      max_by_from snd (k_semantic, semantic)
        [(k_relational, relational); (k_formative, formative)] in
    let component_name := max_component.1 in
    if bool_decide (component_name = k_semantic) && Qgtb semantic 0.6 then
      if Qltb relational 0.3
      then default semantic_default (detail_suffixes self !! k_semantic_high)
      else []
    else if bool_decide (component_name = k_relational) && Qgtb relational 0.6
    then
      if Qltb semantic 0.3
      then default relational_default (detail_suffixes self !! k_relational_high)
      else []
    else if bool_decide (component_name = k_formative) && Qgtb formative 0.7
    then default formative_default (detail_suffixes self !! k_formative_high)
    else [].

Definition generate_hint (similarity_score : Q) (breakdown : gmap pystr Q)
    (user_input answer : pystr) (relationship_type : option pystr)
    (relationship_confidence : Q) : option pystr :=
  if Qeq_bool similarity_score 100 then Some correct_hint
  else
    let contextual_hint :=
      _generate_contextual_hint user_input similarity_score
        relationship_type relationship_confidence in
    let detail_hint := _get_detail_hint breakdown similarity_score in
    if truthy contextual_hint then
      if truthy detail_hint && Qgeb similarity_score 60
      then Some (contextual_hint ++ py ". " ++ detail_hint)
      else Some contextual_hint
    else
      base_hint ← _get_base_hint similarity_score;
      if truthy detail_hint
      then Some (base_hint ++ py " " ++ detail_hint)
      else Some base_hint.

(** [generate_category_hint]: the value under [category_match]. *)
Definition generate_category_hint (user_input answer : pystr) : bool := false.

End Methods.
End Hint.

Import Hint.

(** ** [config.py] *)

Module Config.

Definition WEIGHTS : gmap pystr Q :=
  <[k_formative := 0.15%Q]>
    (<[k_relational := 0.35%Q]> (<[k_semantic := 0.50%Q]> ∅)).

Definition NLI_TEMPLATES : list pystr := Eval vm_compute in [
  py "{input}은 {answer}과 관련이 있다.";
  py "{input}는 {answer}와 같은 맥락에서 언급된다.";
  py "{input}는 {answer}의 상황에서 나타날 수 있다.";
  py "{input}와 {answer}는 비슷한 의미를 가진다."
].

Definition CONTRADICTION_TEMPLATES : list pystr := Eval vm_compute in [
  py "{input}은 {answer}과 반대되는 의미다.";
  py "{input}와 {answer}는 서로 상반된다."
].

Definition HINT_THRESHOLDS : gmap Z pystr :=
  <[0 := py "전혀 다른 방향이에요. 다시 생각해보세요."]>
  (<[20 := py "방향이 조금 다른 것 같아요."]>
  (<[40 := py "관련이 있지만 정확하지 않아요."]>
  (<[60 := py "비슷한 방향이에요. 더 구체적으로 표현해보세요."]>
  (<[80 := py "아주 가까워요! 조금만 더 생각해보세요."]>
  (<[95 := py "거의 정답이에요! 더 정확한 표현이 있어요."]> ∅))))).

(** The dictionary in its declaration order. *)
Definition RELATIONSHIP_ANALYSIS_TEMPLATES : list (pystr * pystr) :=
  Eval vm_compute in [
  (py "상황발생", py "{answer}는 {input} 상황에서 발생할 수 있다.");
  (py "감정원인", py "{input}는 {answer}의 원인이 될 수 있다.");
  (py "속성관계", py "{answer}는 {input}의 특성을 가지고 있다.");
  (py "장소관계", py "{answer}는 {input}에서 일어나는 일이다.");
  (py "사람관계", py "{answer}는 {input} 사이에서 나타나는 것이다.");
  (py "유사장르", py "{answer}는 {input}와 비슷한 종류다.");
  (py "반대관계", py "{answer}는 {input}과 반대되는 것이다.");
  (py "부분전체", py "{answer}는 {input}의 일부분이다.");
  (py "시간관계", py "{answer}는 {input} 때 일어나는 것이다.");
  (py "결과관계", py "{answer}는 {input}의 결과로 생기는 것이다.")
].

Definition levels (high medium low : string) : gmap pystr pystr :=
  <[lv_low := py low]> (<[lv_medium := py medium]> (<[lv_high := py high]> ∅)).

Definition CONTEXTUAL_HINT_TEMPLATES : gmap pystr (gmap pystr pystr) :=
  <[py "상황발생" := levels "{input} 상황에서 나타나는 것이에요"
      "{input}와/과 관련된 상황에서 일어나는 일이에요"
      "{input} 맥락과 연결된 개념이에요"]>
  (<[py "감정원인" := levels "{input}에서 비롯되는 감정이나 행동이에요"
      "{input} 때문에 생길 수 있는 것이에요"
      "{input}와/과 인과관계가 있어요"]>
  (<[py "속성관계" := levels "{input}의 성질을 가진 것이에요"
      "{input}와/과 비슷한 특징이 있어요"
      "{input} 계열의 것이에요"]>
  (<[py "장소관계" := levels "{input}에서 경험할 수 있는 것이에요"
      "{input}와/과 관련된 장소에서 일어나는 일이에요"
      "{input} 공간과 연결되어 있어요"]>
  (<[py "사람관계" := levels "{input} 사이에서 나타나는 것이에요"
      "{input} 관계에서 발생할 수 있는 일이에요"
      "{input}와/과 관련된 인간관계 개념이에요"]>
  (<[py "유사장르" := levels "{input}와/과 비슷한 방식으로 진행되는 것이에요"
      "{input}와/과 같은 종류에 속해요"
      "{input} 계열의 또 다른 것이에요"]>
  (<[py "반대관계" := levels "{input}과는 반대되는 개념이에요"
      "{input}의 반대 방향에 있는 것이에요"
      "{input}와/과 대조적인 것이에요"]>
  (<[py "부분전체" := levels "{input}의 한 부분이에요"
      "{input}를/을 구성하는 요소예요"
      "{input}와/과 포함관계에 있어요"]>
  (<[py "시간관계" := levels "{input} 시기에 일어나는 것이에요"
      "{input} 때 경험하는 것이에요"
      "{input}와/과 시간적으로 연결되어 있어요"]>
  (<[py "결과관계" := levels "{input}의 결과로 나타나는 것이에요"
      "{input} 이후에 생기는 것이에요"
      "{input}에서 파생된 것이에요"]> ∅))))))))).

Definition DETAIL_HINT_SUFFIX : gmap pystr pystr :=
  <[py "contradiction" := py "하지만 정반대 의미는 아니에요"]>
  (<[py "formative_high" := py "철자가 거의 비슷해요"]>
  (<[py "relational_high" := py "맥락이나 상황은 정확해요"]>
  (<[py "semantic_high" := py "의미적으로 매우 가까워요"]> ∅))).

(** The generator that [main.py] builds at start-up. *)
Definition hint_generator : HintGenerator :=
  {| hint_thresholds := HINT_THRESHOLDS;
     contextual_templates := CONTEXTUAL_HINT_TEMPLATES;
     detail_suffixes := DETAIL_HINT_SUFFIX |}.

End Config.

(** ** The request handler of [main.py] *)

Module Main.

(** [SimilarityResponse] without its wall-clock field. *)
Record SimilarityResponse := {
  similarity_score : Q;
  hint : pystr;
  category_match : bool;
  breakdown : gmap pystr Q
}.

(** [정답과 완전히 동일한 단어예요!] *)
Definition identical_hint : pystr :=
  Eval vm_compute in py "정답과 완전히 동일한 단어예요!".

Section Handler.
Context {U : Unicode} {E : External}.

(** [calculate_similarity] once both singletons are loaded; [None] is the
    exception that the handler turns into a 500 response. *)
Definition calculate_similarity (user_input answer : pystr)
  : Eff SimilarityResponse :=
  let normalized_input := normalize_text user_input in
  let normalized_answer := normalize_text answer in
  if bool_decide (normalized_input = normalized_answer) then
    mret {| similarity_score := 100;
            hint := identical_hint;
            category_match := true;
            breakdown := make_breakdown 1 1 1 0 |}
  else
    result ← calculate_combined_similarity user_input answer
               Config.WEIGHTS Config.NLI_TEMPLATES
               Config.CONTRADICTION_TEMPLATES;
    '(relationship_type, relationship_confidence) ←
      analyze_relationship_type user_input answer
        Config.RELATIONSHIP_ANALYSIS_TEMPLATES;
    hint ← lift (generate_hint Config.hint_generator
                   (Similarity.similarity_score result)
                   (Similarity.breakdown result)
                   user_input answer (Some relationship_type)
                   relationship_confidence);
    let category_info :=
      generate_category_hint user_input answer in
    mret {| similarity_score := Similarity.similarity_score result;
            hint := hint;
            category_match := category_info;
            breakdown := Similarity.breakdown result |}.

End Handler.
End Main.

(** ** Reference formulas

    What the specification says in its own words, to compare with the code. *)

Module Spec.

(** [clamp(x, lo, hi)] *)
Definition clamp (x lo hi : Q) : Q :=
  if Qltb x lo then lo else if Qltb hi x then hi else x.

(** Score of a taxonomy entry: the confidence when the rendered template is
    labelled entailment, zero otherwise, also when classification fails. *)
Definition entry_score `{E : External} (input_text answer template : pystr) : Q :=
  match str_format template input_text answer with
  | Some hypothesis =>
    match nli_pipeline hypothesis with
    | Some (entailment, confidence) => confidence
    | _ => 0%Q
    end
  | None => 0%Q
  end.

(** A taxonomy entry with its score. *)
Definition scored `{E : External} (input_text answer : pystr)
    (entry : pystr * pystr) : pystr * Q :=
  (entry.1, entry_score input_text answer entry.2).

(** Every template of the taxonomy can be rendered. *)
Definition renders `{E : External} (input_text answer : pystr)
    (taxonomy : list (pystr * pystr)) : Prop :=
  Forall (λ entry, is_Some (str_format entry.2 input_text answer)) taxonomy.

End Spec.

(** ** Stand-ins for the external capabilities

    Concrete capabilities on which the definitions can be run: a formatter
    for templates whose only braces are the two named fields, a constant
    embedding, the identity decomposition, and a classifier given as a
    function of the hypothesis. *)

Module Mock.

Definition f_input : pystr := Eval vm_compute in py "{input}".
Definition f_answer : pystr := Eval vm_compute in py "{answer}".

(** [skip] counts the characters of a field still to be passed over; a brace
    that does not open one of the two fields raises. *)
Fixpoint format_from (skip : nat) (input_text answer template : pystr)
  : option pystr :=
  match template with
  | [] => Some []
  | c :: rest =>
    match skip with
    | S k => format_from k input_text answer rest
    | O =>
      if starts_with f_input template then
        (input_text ++.) <$> format_from 6 input_text answer rest
      else if starts_with f_answer template then
        (answer ++.) <$> format_from 7 input_text answer rest
      else if ((c =? 0x7B) || (c =? 0x7D))%N then None
      else (c ::.) <$> format_from 0 input_text answer rest
    end
  end.

Definition external (nli : pystr → option (label * Q)) : External := {|
  vec := unit;
  encode := λ texts, Some (map (λ _, ()) texts);
  cosine := λ _ _, 1%Q;
  nli_pipeline := nli;
  str_format := λ template input_text answer,
    format_from 0 input_text answer template;
  h2j := id
|}.

(** A classifier that finds every hypothesis neutral. *)
Definition all_neutral : pystr → option (label * Q) :=
  λ _, Some (neutral, 0.9%Q).

(** [needle in text] *)
Fixpoint contains (needle text : pystr) : bool :=
  match text with
  | [] => starts_with needle []
  | _ :: rest => starts_with needle text || contains needle rest
  end.

(** A classifier that finds, with the same confidence, entailment in the
    hypotheses that speak of a part ([일부분]) or of a result ([결과]), and
    a contradiction in the others. *)
Definition part_or_result : pystr → option (label * Q) :=
  λ hypothesis,
    if contains (py "일부분") hypothesis || contains (py "결과") hypothesis
    then Some (entailment, 0.8%Q)
    else Some (contradiction, 0.9%Q).

End Mock.

(** ** The fusion in binary64

    Lines 272 to 296 on IEEE 754 doubles, as the interpreter performs them:
    the operations are those of the processor, the literals are the doubles
    nearest to the decimals written, and [round] is the correctly rounded
    one of the interpreter.  [exact] is the rational a finite double
    denotes. *)

Module Binary64.
Import PrimFloat SpecFloat.

#[local] Set Warnings "-inexact-float".

Definition exact (x : float) : Q :=
  match FloatOps.Prim2SF x with
  | S754_finite sign m e =>
    let magnitude :=
      match e with
      | Z0 => inject_Z (Z.pos m)
      | Zpos p => inject_Z (Z.pos m * 2 ^ Z.pos p)
      | Zneg p => (inject_Z (Z.pos m) / inject_Z (2 ^ Z.pos p))%Q
      end in
    if sign then (- magnitude)%Q else magnitude
  | _ => 0%Q
  end.

Definition fmin (a b : float) : float := if ltb b a then b else a.
Definition fmax (a b : float) : float := if ltb a b then b else a.

Definition final_score (semantic relational formative contradiction
    w_semantic w_relational w_formative : float) : float :=
  let weighted_score :=
    (semantic * w_semantic + relational * w_relational
     + formative * w_formative)%float in
  let weighted_score := (weighted_score - contradiction * 0.15)%float in
  let weighted_score := fmax 0 (fmin 1 weighted_score) in
  (weighted_score * 100)%float.

Definition scenario_B : float := final_score 0.8 0.2 0.1 0.0 0.50 0.35 0.15.
Definition scenario_C : float := final_score 0.8 0.2 0.1 0.8 0.50 0.35 0.15.

(** The double of a natural number below 2^53, which it represents
    exactly. *)
Definition of_Z (n : Z) : float := of_uint63 (Uint63Axioms.of_Z n).

(** [round(x, ndigits)] on a double, for [ndigits] up to 15: the double
    nearest to the decimal of [ndigits] decimals that is nearest to the
    exact value of [x], a tie of the exact value going to the even last
    digit.  The numerator and the power of ten are exact doubles, so their
    correctly rounded quotient is the double nearest to that decimal.  A
    double of magnitude 2^53 / 10^ndigits or more has no digit to drop and
    is returned as it is, like a zero, an infinity or a NaN. *)
Definition round (x : float) (ndigits : nat) : float :=
  match FloatOps.Prim2SF x with
  | S754_finite sign _ _ =>
    let scale := 10 ^ Z.of_nat ndigits in
    let nearest := round_half_even (exact (abs x) * inject_Z scale) in
    if nearest <? 2 ^ 53 then
      let rounded := (of_Z nearest / of_Z scale)%float in
      if sign then (- rounded)%float else rounded
    else x
  | _ => x
  end.

Record Scores := {
  similarity_score : float;
  breakdown : gmap pystr float
}.

Definition make_breakdown (semantic relational formative contradiction : float)
  : gmap pystr float :=
  <[k_contradiction := contradiction]>
    (<[k_formative := formative]>
      (<[k_relational := relational]>
        (<[k_semantic := semantic]> ∅))).

(** Lines 272 to 296 on doubles.  [weights[k]] raises on a missing key. *)
Definition fuse (semantic_score relation_score formative_score
    contradiction_score : float) (weights : gmap pystr float)
  : option Scores :=
  w_semantic ← weights !! k_semantic;
  w_relational ← weights !! k_relational;
  w_formative ← weights !! k_formative;
  let weighted_score :=
    (semantic_score * w_semantic + relation_score * w_relational
     + formative_score * w_formative)%float in
  let weighted_score := (weighted_score - contradiction_score * 0.15)%float in
  let weighted_score := fmax 0 (fmin 1 weighted_score) in
  let final_score := (weighted_score * 100)%float in
  Some {| similarity_score := round final_score 2;
          breakdown :=
            make_breakdown (round semantic_score 4) (round relation_score 4)
              (round formative_score 4) (round contradiction_score 4) |}.

(** [WEIGHTS] of [config.py], as doubles. *)
Definition WEIGHTS : gmap pystr float :=
  <[k_formative := 0.15%float]>
    (<[k_relational := 0.35%float]> (<[k_semantic := 0.50%float]> ∅)).

(** [clamp(x, lo, hi)] of the specification, by cases. *)
Definition clamp (x lo hi : float) : float :=
  if leb x lo then lo else if leb hi x then hi else x.

(** The composite of section 4.6 of the specification, on doubles. *)
Definition composite (semantic relational formative contradiction
    w_semantic w_relational w_formative : float) : float :=
  round
    (clamp (semantic * w_semantic + relational * w_relational
            + formative * w_formative - contradiction * 0.15) 0 1 * 100) 2.

End Binary64.

(** ** Per-hypothesis scores

    The scores that the loops of the relational scorer collect, as functions
    of a rendered hypothesis. *)

Module Reference.
Section WithCapabilities.
Context {E : External}.

(** Score of an affirmative hypothesis; 0 stands in when the classifier
    raises, a case in which the scorer itself raises. *)
Definition affirmative_of (hypothesis : pystr) : Q :=
  match nli_pipeline hypothesis with
  | Some result => affirmative_score result
  | None => 0%Q
  end.

(** The confidences that the contradiction loop keeps: those of the
    hypotheses labelled entailment. *)
Definition entailment_confidences (hypotheses : list pystr) : list Q :=
  omap (λ hypothesis,
          match nli_pipeline hypothesis with
          | Some (entailment, confidence) => Some confidence
          | _ => None
          end) hypotheses.

(** Every answer of the classifier carries a confidence in [0, 1]. *)
Definition classifier_bounded : Prop :=
  ∀ hypothesis result,
    nli_pipeline hypothesis = Some result → (0 <= result.2 <= 1)%Q.

(** The cosine of two embeddings lies in [-1, 1]. *)
Definition cosine_bounded : Prop :=
  ∀ u v : vec, (-1 <= cosine u v <= 1)%Q.

(** The embedding model returns at least two vectors for the two texts. *)
Definition embeds (user_input answer : pystr) : Prop :=
  ∃ e0 e1 rest, encode [user_input; answer] = Some (e0 :: e1 :: rest).

(** Every configured scoring template renders and its hypothesis is
    classified. *)
Definition scores_classified (user_input answer : pystr) : Prop :=
  Forall (λ t, ∃ h, str_format t user_input answer = Some h
                    ∧ is_Some (nli_pipeline h))
    (Config.NLI_TEMPLATES ++ Config.CONTRADICTION_TEMPLATES).

End WithCapabilities.
End Reference.

(** * Properties *)

(** ** Strings and the normaliser *)

Module PyStrFacts.

Lemma truthy_true (s : pystr) : truthy s = true ↔ s ≠ [].
Proof. destruct s; simpl; split; congruence. Qed.

Lemma truthy_false (s : pystr) : truthy s = false ↔ s = [].
Proof. destruct s; simpl; split; congruence. Qed.

Lemma app_nonempty_l (s t : pystr) : s ≠ [] → s ++ t ≠ [].
Proof. by destruct s. Qed.

Example py_hangul : py "가힣" = [0xAC00; 0xD7A3]%N.
Proof. reflexivity. Qed.

Example py_astral : py "🎉" = [0x1F389]%N.
Proof. reflexivity. Qed.

Example replace_input :
  replace (py "{input}") (py "ab") (py "x{input}y{input}") = py "xabyab".
Proof. reflexivity. Qed.

End PyStrFacts.

Module NormalizerFacts.
Section WithTables.
Context {U : Unicode}.

Lemma re_sub_delete_filter cls text :
  re_sub_delete cls text = List.filter (λ c, negb (cls c)) text.
Proof.
  induction text as [|c rest IH]; simpl; [done|].
  destruct (cls c); simpl; by rewrite IH.
Qed.

Lemma filter_Forall (p : N → bool) (text : pystr) :
  Forall (λ c, p c = true) (List.filter p text).
Proof.
  induction text as [|c rest IH]; simpl; [constructor|].
  destruct (p c) eqn:E; [by constructor | done].
Qed.

Lemma Forall_filter_keep (p q : N → bool) (text : pystr) :
  Forall (λ c, p c = true) text → Forall (λ c, p c = true) (List.filter q text).
Proof.
  induction 1 as [|c rest Hc _ IH]; simpl; [constructor|].
  destruct (q c); [by constructor | done].
Qed.

Lemma lstrip_no_space text :
  Forall (λ c, negb (isspace c) = true) text → lstrip text = text.
Proof.
  destruct 1 as [|c rest Hc _]; simpl; [done|].
  by destruct (isspace c).
Qed.

(** Once the whitespace is gone, [strip] has nothing to remove. *)
Lemma strip_no_space text :
  Forall (λ c, negb (isspace c) = true) text → strip text = text.
Proof.
  intros H. unfold strip, rstrip. rewrite (lstrip_no_space text H).
  rewrite lstrip_no_space; [apply rev_involutive|].
  by apply Forall_rev.
Qed.

Lemma normalize_text_filter text : normalize_text text = normalize_steps text.
Proof.
  unfold normalize_text, normalize_steps.
  rewrite !re_sub_delete_filter.
  set (t := List.filter (λ c, negb (isspace c)) (str_lower text)).
  assert (Ht : Forall (λ c, negb (isspace c) = true) t)
    by apply filter_Forall.
  rewrite strip_no_space by (by apply Forall_filter_keep).
  clearbody t. induction Ht as [|c rest Hc _ IH]; simpl; [done|].
  unfold special at 1. apply negb_true_iff in Hc. rewrite Hc, IH.
  by rewrite negb_involutive, orb_false_r.
Qed.

End WithTables.
End NormalizerFacts.

(** C4 (as stated, refuted): on the one-letter string [é] (U+00E9) the code
    returns the letter, because [\w] in a [str] pattern is the Unicode word
    test, while the three steps as the claim words them (ASCII word
    character or Hangul syllable) return the empty string. *)
Lemma normalize_text_keeps_latin_letter :
  normalize_text (U := Latin1.tables) [0xE9]%N = [0xE9]%N
  ∧ normalize_spec (U := Latin1.tables) [0xE9]%N = [].
Proof. split; reflexivity. Qed.

(** C4 (amended): for every input and every runtime table, [normalize_text]
    is the composition, in this order, of lowercasing, deleting every
    whitespace character, and deleting every character that is neither a
    word character of the regular-expression engine (Unicode [\w]) nor a
    Hangul syllable; the final [strip] changes nothing; and the empty string
    is mapped to the empty string. *)
Theorem normalize_text_steps `{U : Unicode} :
  (∀ text : pystr,
     normalize_text text
     = List.filter (λ c, isword c || hangul_syllable c)
         (List.filter (λ c, negb (isspace c)) (str_lower text)))
  ∧ normalize_text [] = [].
Proof.
  split.
  - intros text. apply NormalizerFacts.normalize_text_filter.
  - rewrite NormalizerFacts.normalize_text_filter. unfold normalize_steps.
    by rewrite str_lower_nil.
Qed.

Example normalize_friend :
  normalize_text (U := Latin1.tables) (py "Friend ")
  = normalize_text (U := Latin1.tables) (py "friend").
Proof. reflexivity. Qed.

Example normalize_mixed :
  normalize_text (U := Latin1.tables) (py " 라이어 Game! ") = py "라이어game".
Proof. reflexivity. Qed.

(** ** The edit distance and the formative score *)

Module FormativeFacts.
Section Rows.
Context {A : Type} `{EqDecision A}.

#[local] Arguments lev : simpl never.

Lemma lev_nil_l (b : list A) : lev [] b = length b.
Proof. by destruct b. Qed.

Lemma lev_nil_r (a : list A) : lev a [] = length a.
Proof. by destruct a. Qed.

Lemma lev_cons (x y : A) (a b : list A) :
  lev (x :: a) (y :: b)
  = ((lev a (y :: b) + 1) `min`
      ((lev (x :: a) b + 1) `min` (lev a b + (if decide (x = y) then 0 else 1))))%nat.
Proof. reflexivity. Qed.

Lemma lev_sym (a b : list A) : lev a b = lev b a.
Proof.
  revert b. induction a as [|x a IHa]; intros b.
  - by rewrite lev_nil_l, lev_nil_r.
  - induction b as [|y b IHb].
    + by rewrite lev_nil_l, lev_nil_r.
    + rewrite !lev_cons, IHb, (IHa (y :: b)), (IHa b).
      destruct (decide (x = y)), (decide (y = x)); try congruence; lia.
Qed.

Lemma is_row_init (s2 : list A) :
  is_row [] s2 (length s2) (seq 0 (length s2 + 1)).
Proof.
  split; [rewrite length_seq; lia|].
  intros j Hj. rewrite lookup_seq_lt by lia.
  rewrite lev_nil_l, length_rev, length_take. f_equal. lia.
Qed.

Lemma inner_loop_spec (c1 : A) (ra s2 : list A) (previous_row : list nat) :
  is_row ra s2 (length s2) previous_row →
  ∀ (rest done : list A) (current_row : list nat),
    s2 = done ++ rest →
    is_row (c1 :: ra) s2 (length done) current_row →
    ∃ row,
      inner_loop c1 previous_row (enumerate_from (length done) rest) current_row
      = Some row
      ∧ is_row (c1 :: ra) s2 (length s2) row.
Proof.
  intros [Hlp Hp] rest.
  induction rest as [|c2 rest IH]; intros done cur Hs2 [Hlc Hc].
  - exists cur. rewrite app_nil_r in Hs2. by subst.
  - assert (Hlen : length s2 = (length done + S (length rest))%nat)
      by (subst s2; by rewrite length_app).
    assert (Htake1 : take (length done + 1) s2 = done ++ [c2]).
    { subst s2. rewrite (app_assoc done [c2] rest : done ++ c2 :: rest = _).
      replace (length done + 1)%nat with (length (done ++ [c2]))
        by (rewrite length_app; simpl; lia).
      apply take_app_length. }
    assert (Htake0 : take (length done) s2 = done)
      by (subst s2; apply take_app_length).
    simpl. unfold cell.
    rewrite (Hp (length done + 1)%nat) by lia. simpl.
    rewrite (Hc (length done)) by lia. simpl.
    rewrite (Hp (length done)) by lia. simpl.
    rewrite Htake1, Htake0, rev_unit.
    specialize (IH (done ++ [c2])).
    rewrite length_app in IH. simpl in IH.
    replace (length done + 1)%nat with (S (length done)) in IH by lia.
    apply IH.
    + subst s2. by rewrite <- app_assoc.
    + split; [rewrite length_app; simpl; lia|].
      intros j Hj. destruct (decide (j ≤ length done)%nat) as [Hle|Hgt].
      * rewrite lookup_app_l by lia. by apply Hc.
      * assert (j = S (length done)) as -> by lia.
        rewrite lookup_app_r by lia.
        replace (S (length done) - length cur)%nat with 0%nat by lia.
        simpl. f_equal.
        replace (S (length done)) with (length done + 1)%nat by lia.
        by rewrite Htake1, rev_unit, lev_cons.
Qed.

Lemma outer_loop_spec (s1 s2 : list A) :
  ∀ (rest done : list A) (previous_row : list nat),
    s1 = done ++ rest →
    is_row (rev done) s2 (length s2) previous_row →
    ∃ row,
      outer_loop (enumerate_from (length done) rest) s2 previous_row = Some row
      ∧ is_row (rev s1) s2 (length s2) row.
Proof.
  intros rest. induction rest as [|c1 rest IH]; intros done prev Hs1 Hprev.
  - exists prev. rewrite app_nil_r in Hs1. by subst.
  - simpl.
    destruct (inner_loop_spec c1 (rev done) s2 prev Hprev s2 []
                [(length done + 1)%nat]) as (row & Hrow & Hinv).
    + done.
    + split; [done|]. intros j Hj. assert (j = 0%nat) as -> by (simpl in Hj; lia).
      simpl. rewrite lev_nil_r. simpl. rewrite length_rev. f_equal. lia.
    + unfold enumerate. simpl in Hrow. rewrite Hrow. simpl.
      specialize (IH (done ++ [c1]) row).
      rewrite length_app in IH. simpl in IH.
      replace (length done + 1)%nat with (S (length done)) in IH by lia.
      apply IH.
      * subst s1. by rewrite <- app_assoc.
      * by rewrite rev_unit.
Qed.

(** The two nested loops compute the recurrence. *)
Lemma levenshtein_rows_lev (s1 s2 : list A) :
  levenshtein_rows s1 s2 = Some (lev (rev s1) (rev s2)).
Proof.
  unfold levenshtein_rows.
  destruct (Nat.eqb_spec (length s2) 0) as [H0|Hn0].
  - apply nil_length_inv in H0. subst s2. simpl.
    by rewrite lev_nil_r, length_rev.
  - destruct (outer_loop_spec s1 s2 s1 [] (seq 0 (length s2 + 1)))
      as (row & Hrow & [Hlen Hinv]); [done | apply is_row_init |].
    unfold enumerate. simpl in Hrow. rewrite Hrow. simpl.
    rewrite last_lookup, Hlen. simpl.
    rewrite (Hinv (length s2)) by lia.
    by rewrite firstn_all.
Qed.

Lemma levenshtein_distance_lev (s1 s2 : list A) :
  _levenshtein_distance s1 s2 = Some (lev (rev s1) (rev s2)).
Proof.
  unfold _levenshtein_distance.
  destruct (length s1 <? length s2)%nat; rewrite levenshtein_rows_lev;
    [by rewrite lev_sym | done].
Qed.

Lemma levenshtein_distance_sym (s1 s2 : list A) :
  _levenshtein_distance s1 s2 = _levenshtein_distance s2 s1.
Proof. by rewrite !levenshtein_distance_lev, lev_sym. Qed.

End Rows.
End FormativeFacts.

(** C8: the formative similarity is symmetric in its two arguments, whatever
    the decomposition into jamo is, and it always yields a value. *)
Theorem calculate_formative_similarity_sym (h2j : pystr → pystr) (a b : pystr) :
  calculate_formative_similarity h2j a b = calculate_formative_similarity h2j b a
  ∧ is_Some (calculate_formative_similarity h2j a b).
Proof.
  unfold calculate_formative_similarity.
  rewrite (FormativeFacts.levenshtein_distance_sym (h2j a) (h2j b)).
  rewrite (Nat.max_comm (length (h2j a)) (length (h2j b))).
  split; [done|].
  rewrite FormativeFacts.levenshtein_distance_lev. simpl.
  by destruct (_ =? 0)%nat.
Qed.

(** Scenario A: one substitution over three characters. *)
Example formative_abc_abd :
  calculate_formative_similarity id (py "abc") (py "abd") = Some (2 # 3)%Q
  ∧ _levenshtein_distance (py "kitten") (py "sitting") = Some 3%nat.
Proof. split; reflexivity. Qed.

Example format_template :
  Mock.format_from 0 (py "친구") (py "배신")
    (py "{answer}는 {input} 사이에서 나타나는 것이다.")
  = Some (py "배신는 친구 사이에서 나타나는 것이다.").
Proof. reflexivity. Qed.

(** ** Comparisons, clipping and rounding *)

Module PyNumFacts.

Lemma Qltb_lt (x y : Q) : Qltb x y = true ↔ (x < y)%Q.
Proof.
  unfold Qltb. rewrite negb_true_iff. split.
  - intros Hb. apply Qnot_le_lt. intros Hle.
    apply Qle_bool_iff in Hle. congruence.
  - intros Hlt. destruct (Qle_bool y x) eqn:Hb; [|done].
    apply Qle_bool_iff in Hb. lra.
Qed.

Lemma Qltb_ge (x y : Q) : Qltb x y = false ↔ (y <= x)%Q.
Proof.
  unfold Qltb. rewrite negb_false_iff. apply Qle_bool_iff.
Qed.

Lemma Qgeb_ge (x y : Q) : Qgeb x y = true ↔ (y <= x)%Q.
Proof. apply Qle_bool_iff. Qed.

Lemma Qgeb_lt (x y : Q) : Qgeb x y = false ↔ (x < y)%Q.
Proof.
  unfold Qgeb. split.
  - intros Hb. apply Qnot_le_lt. intros Hle.
    apply Qle_bool_iff in Hle. congruence.
  - intros Hlt. destruct (Qle_bool y x) eqn:Hb; [|done].
    apply Qle_bool_iff in Hb. lra.
Qed.

(** Case analysis on a comparison, leaving the order fact in the context. *)
Ltac case_Qltb x y :=
  let H := fresh "Hcmp" in
  destruct (Qltb x y) eqn:H;
  [apply Qltb_lt in H | apply Qltb_ge in H].

(** The two orders of clipping agree as numbers (at [x == 1] the code returns
    its literal [1.0] and the formula returns [x]). *)
Lemma clip_clamp (x : Q) : (py_max 0 (py_min 1 x) == Spec.clamp x 0 1)%Q.
Proof.
  unfold py_max, py_min, Spec.clamp.
  case_Qltb x 1%Q; case_Qltb x 0%Q; case_Qltb 1%Q x;
    try case_Qltb 0%Q x; try case_Qltb 0%Q 1%Q; lra.
Qed.

Lemma clamp_mono (x y : Q) :
  (x <= y)%Q → (Spec.clamp x 0 1 <= Spec.clamp y 0 1)%Q.
Proof.
  intros Hxy. unfold Spec.clamp.
  case_Qltb x 0%Q; case_Qltb y 0%Q; try case_Qltb 1%Q x;
    try case_Qltb 1%Q y; lra.
Qed.

Lemma clamp_bounds (x : Q) : (0 <= Spec.clamp x 0 1 <= 1)%Q.
Proof.
  unfold Spec.clamp. case_Qltb x 0%Q; try case_Qltb 1%Q x; lra.
Qed.

Lemma round_half_even_mono (x y : Q) :
  (x <= y)%Q → round_half_even x ≤ round_half_even y.
Proof.
  intros Hxy. unfold round_half_even.
  pose proof (Qfloor_le x) as Hx1. pose proof (Qlt_floor x) as Hx2.
  pose proof (Qfloor_le y) as Hy1. pose proof (Qlt_floor y) as Hy2.
  pose proof (Qfloor_resp_le x y Hxy) as Hf.
  rewrite inject_Z_plus in Hx2, Hy2.
  destruct (Z.eq_dec (Qfloor x) (Qfloor y)) as [Heq|Hne].
  - rewrite <- Heq in *.
    destruct (Qcompare_spec (x - inject_Z (Qfloor x)) (1 # 2)) as [Ex|Ex|Ex];
    destruct (Qcompare_spec (y - inject_Z (Qfloor x)) (1 # 2)) as [Ey|Ey|Ey];
      try destruct (Z.even (Qfloor x)); try lia; exfalso; lra.
  - assert (Qfloor x + 1 ≤ Qfloor y) by lia.
    destruct (Qcompare_spec (x - inject_Z (Qfloor x)) (1 # 2)) as [Ex|Ex|Ex];
    destruct (Qcompare_spec (y - inject_Z (Qfloor y)) (1 # 2)) as [Ey|Ey|Ey];
      try destruct (Z.even (Qfloor x)); try destruct (Z.even (Qfloor y)); lia.
Qed.

Lemma pow10_pos (n : nat) : (0 < inject_Z (10 ^ Z.of_nat n))%Q.
Proof.
  change 0%Q with (inject_Z 0). rewrite <- Zlt_Qlt.
  apply Z.pow_pos_nonneg; lia.
Qed.

Lemma py_round_mono (x y : Q) (n : nat) :
  (x <= y)%Q → (py_round x n <= py_round y n)%Q.
Proof.
  intros Hxy. unfold py_round.
  pose proof (pow10_pos n) as Hp.
  apply Qmult_le_compat_r.
  - rewrite <- Zle_Qle. apply round_half_even_mono.
    apply Qmult_le_compat_r; lra.
  - apply Qlt_le_weak, Qinv_lt_0_compat, Hp.
Qed.

Lemma py_round_proper (x y : Q) (n : nat) :
  (x == y)%Q → (py_round x n == py_round y n)%Q.
Proof.
  intros Hxy. apply Qle_antisym; apply py_round_mono; lra.
Qed.

(** The first maximal item: [max_by_from] returns an item of the list such
    that no item has a greater key and every earlier item has a smaller one. *)
Lemma max_by_from_first {X} (key : X → Q) (items : list X) (best : X) :
  ∃ i : nat,
    (best :: items) !! i = Some (max_by_from key best items)
    ∧ (∀ j x, (best :: items) !! j = Some x →
         (key x <= key (max_by_from key best items))%Q)
    ∧ (∀ j x, (j < i)%nat → (best :: items) !! j = Some x →
         (key x < key (max_by_from key best items))%Q).
Proof.
  revert best. induction items as [|y rest IH]; intros best.
  - exists 0%nat. simpl. split; [done|]. split.
    + intros [|j] x Hx; simplify_eq/=. lra.
    + intros j x Hj. lia.
  - simpl. case_Qltb (key best) (key y).
    + destruct (IH y) as (i & Hi & Hall & Hbefore).
      set (r := max_by_from key y rest) in *.
      assert (Hy : (key y <= key r)%Q) by (apply (Hall 0%nat); done).
      exists (S i). split; [done|]. split.
      * intros [|j] x Hx; simplify_eq/=; [lra | by apply (Hall j)].
      * intros [|j] x Hj Hx; simplify_eq/=; [lra|].
        apply (Hbefore j); [lia | done].
    + destruct (IH best) as (i & Hi & Hall & Hbefore).
      set (r := max_by_from key best rest) in *.
      assert (Hb : (key best <= key r)%Q) by (apply (Hall 0%nat); done).
      destruct i as [|i].
      * exists 0%nat. split; [done|]. split; [|intros; lia].
        intros [|[|j]] x Hx; simplify_eq/=; [lra | lra |].
        by apply (Hall (S j)).
      * assert (Hb' : (key best < key r)%Q)
          by (apply (Hbefore 0%nat); [lia | done]).
        exists (S (S i)). split; [done|]. split.
        -- intros [|[|j]] x Hx; simplify_eq/=; [lra | lra |].
           by apply (Hall (S j)).
        -- intros [|[|j]] x Hj Hx; simplify_eq/=; [lra | lra |].
           apply (Hbefore (S j)); [lia | done].
Qed.

End PyNumFacts.

Example round_ties_to_even :
  py_round 0.125 2 = 0.12%Q ∧ py_round 0.135 2 = 0.14%Q
  ∧ (py_round (-0.5) 0 == 0)%Q ∧ (py_round 48.5 2 == 48.5)%Q.
Proof. repeat split. Qed.

(** ** ScoreFusion *)

Module FusionFacts.
Import PyNumFacts.


(** The value of [fuse] when the three weights are present. *)
Lemma fuse_value (s r f c : Q) (weights : gmap pystr Q) (ws wr wf : Q)
    (log : list call) :
  weights !! k_semantic = Some ws →
  weights !! k_relational = Some wr →
  weights !! k_formative = Some wf →
  fuse s r f c weights log
  = (Some {| similarity_score :=
               py_round
                 (py_max 0 (py_min 1 (s * ws + r * wr + f * wf - c * 0.15))
                  * 100) 2;
             breakdown :=
               make_breakdown (py_round s 4) (py_round r 4)
                 (py_round f 4) (py_round c 4) |}, log).
Proof. intros Hs Hr Hf. unfold fuse. by rewrite Hs, Hr, Hf. Qed.

Lemma clip_mono (x y : Q) :
  (x <= y)%Q → (py_max 0 (py_min 1 x) <= py_max 0 (py_min 1 y))%Q.
Proof. intros Hxy. rewrite !clip_clamp. by apply clamp_mono. Qed.

(** Off the exact-match path the combined similarity is the fusion of the
    three scores and the contradiction signal. *)
Lemma calculate_combined_similarity_fuse `{U : Unicode} `{E : External}
    (input_text answer : pystr) (weights : gmap pystr Q)
    (nli_templates contradiction_templates : list pystr)
    (s r f c : Q) (log log1 log2 : list call) :
  normalize_text input_text ≠ normalize_text answer →
  calculate_semantic_similarity input_text answer log = (Some s, log1) →
  calculate_relational_similarity input_text answer nli_templates
    contradiction_templates log1 = (Some (r, c), log2) →
  calculate_formative_similarity h2j (normalize_text input_text)
    (normalize_text answer) = Some f →
  calculate_combined_similarity input_text answer weights nli_templates
    contradiction_templates log
  = fuse s r f c weights log2.
Proof.
  intros Hne Hs Hr Hf. unfold calculate_combined_similarity.
  rewrite bool_decide_eq_false_2 by done.
  unfold mbind, eff_bind at 1. rewrite Hs.
  unfold eff_bind at 1. rewrite Hr.
  unfold eff_bind at 1. by rewrite Hf.
Qed.

End FusionFacts.

(** ** The fusion on doubles *)

Module Binary64Facts.
Import PrimFloat SpecFloat FloatAxioms.
Import Binary64.

Lemma SFcompare_antisym (a b : spec_float) :
  SFcompare b a = CompOpp <$> SFcompare a b.
Proof.
  destruct a as [sa|sa| |sa ma ea], b as [sb|sb| |sb mb eb]; simpl;
    try done; try (by destruct sa); try (by destruct sb);
    try (by destruct sa, sb).
  pose proof (Pos.compare_antisym ma mb) as Hm. unfold Pos.compare in Hm.
  rewrite (Z.compare_antisym ea eb), Hm.
  destruct sa, sb; simpl; try done;
    by destruct (ea ?= eb); simpl; rewrite ?CompOpp_involutive.
Qed.

(** Two numbers are comparable. *)
Lemma is_nan_compare (x y : float) :
  is_nan x = false → is_nan y = false →
  is_Some (SFcompare (FloatOps.Prim2SF x) (FloatOps.Prim2SF y)).
Proof.
  unfold is_nan. rewrite !eqb_spec. unfold SFeqb.
  by destruct (FloatOps.Prim2SF x), (FloatOps.Prim2SF y).
Qed.

(** On numbers, [x <= y] is the negation of [y < x]. *)
Lemma leb_ltb (x y : float) :
  is_nan x = false → is_nan y = false → leb x y = negb (ltb y x).
Proof.
  intros Hx Hy. rewrite leb_spec, ltb_spec. unfold SFleb, SFltb.
  rewrite (SFcompare_antisym (FloatOps.Prim2SF x) (FloatOps.Prim2SF y)).
  destruct (is_nan_compare x y Hx Hy) as [c ->]. by destruct c.
Qed.

(** A number that is not above 0 is below 1. *)
Lemma ltb_0_1 (x : float) :
  is_nan x = false → ltb 0 x = false → ltb x 1 = true.
Proof.
  unfold is_nan. rewrite eqb_spec, !ltb_spec.
  change (FloatOps.Prim2SF 0) with (S754_zero false).
  change (FloatOps.Prim2SF 1) with (S754_finite false 4503599627370496 (-52)).
  by destruct (FloatOps.Prim2SF x) as [[]|[]| |[] m e].
Qed.

(** [max(0.0, min(1.0, x))] is the clamp by cases on every number, the
    zeros of either sign included. *)
Lemma clip_clamp64 (x : float) :
  is_nan x = false → fmax 0 (fmin 1 x) = clamp x 0 1.
Proof.
  intros Hx. unfold fmax, fmin, clamp.
  rewrite (leb_ltb x 0), (leb_ltb 1 x) by done.
  destruct (ltb x 1) eqn:H1.
  - by destruct (ltb 0 x).
  - change (ltb 0 1) with true.
    destruct (ltb 0 x) eqn:H0; [done|].
    by rewrite (ltb_0_1 x Hx H0) in H1.
Qed.

Lemma make_breakdown64_lookup (s r f c : float) :
  make_breakdown s r f c !! k_semantic = Some s
  ∧ make_breakdown s r f c !! k_relational = Some r
  ∧ make_breakdown s r f c !! k_formative = Some f
  ∧ make_breakdown s r f c !! k_contradiction = Some c.
Proof. unfold make_breakdown. repeat split; by simplify_map_eq. Qed.

End Binary64Facts.

Section Doubles.
Import PrimFloat.

#[local] Set Warnings "-inexact-float".

(** C3: on doubles, with the three weights present and the penalised sum a
    number, the composite returned by the fusion is
    [round(clamp(semantic·w_semantic + relational·w_relational +
    formative·w_formative − contradiction·0.15, 0, 1) · 100, 2)], and each
    entry of the breakdown is its signal rounded to four decimals, the
    contradiction entry being the unpenalised signal.  With the configured
    weights the signals (0.8, 0.2, 0.1, 0.0) give 48.5 and the same with
    contradiction 0.8 give 36.5.  The rounding is that of the interpreter on
    the binary value: 8.514999999999999 gives 8.51 and 0.025000000000000001
    gives 0.03, the exact ties 3.125 and 9.375 go to the even digit, 3.12
    and 9.38, and so in the breakdown 0.12345 gives 0.1235, 0.03125 gives
    0.0312 and 0.09375 gives 0.0938; the clamp saturates at 100 and at 0. *)
Theorem fuse_binary64_composite :
  (∀ (s r f c : float) (weights : gmap pystr float) (ws wr wf : float),
     weights !! k_semantic = Some ws →
     weights !! k_relational = Some wr →
     weights !! k_formative = Some wf →
     is_nan (s * ws + r * wr + f * wf - c * 0.15)%float = false →
     ∃ res,
       Binary64.fuse s r f c weights = Some res
       ∧ Binary64.similarity_score res = Binary64.composite s r f c ws wr wf
       ∧ Binary64.breakdown res !! k_semantic = Some (Binary64.round s 4)
       ∧ Binary64.breakdown res !! k_relational = Some (Binary64.round r 4)
       ∧ Binary64.breakdown res !! k_formative = Some (Binary64.round f 4)
       ∧ Binary64.breakdown res !! k_contradiction
         = Some (Binary64.round c 4))
  ∧ Forall (λ '(s, r, f, c, score),
             Binary64.similarity_score
               <$> Binary64.fuse s r f c Binary64.WEIGHTS
             = Some score)
      [ (0.8, 0.2, 0.1, 0.0, 48.5);
        (0.8, 0.2, 0.1, 0.8, 36.5);
        (0.0003, 0.2, 0.1, 0.0, 8.51);
        (0.0005, 0.0, 0.0, 0.0, 0.03);
        (0.0625, 0.0, 0.0, 0.0, 3.12);
        (0.1875, 0.0, 0.0, 0.0, 9.38);
        (1.0, 1.0, 1.0, 0.0, 100.0);
        (0.1, 0.0, 0.0, 1.0, 0.0) ]%float
  ∧ Binary64.breakdown
      <$> Binary64.fuse 0.12345 0.03125 0.09375 0.8 Binary64.WEIGHTS
    = Some (Binary64.make_breakdown 0.1235 0.0312 0.0938 0.8).
Proof.
  split; [|split].
  - intros s r f c weights ws wr wf Hs Hr Hf Hnum.
    unfold Binary64.fuse. rewrite Hs, Hr, Hf. simpl.
    eexists. split; [done|]. simpl. split.
    + unfold Binary64.composite. by rewrite Binary64Facts.clip_clamp64.
    + apply Binary64Facts.make_breakdown64_lookup.
  - repeat (constructor; [by vm_compute|]). constructor.
  - by vm_compute.
Qed.

Lemma fuse_binary64_composite_witness :
  ∃ res,
    Binary64.fuse 0.0003 0.2 0.1 0.0 Binary64.WEIGHTS = Some res
    ∧ Binary64.similarity_score res
      = Binary64.composite 0.0003 0.2 0.1 0.0 0.50 0.35 0.15
    ∧ Binary64.breakdown res !! k_semantic = Some (Binary64.round 0.0003 4)
    ∧ Binary64.breakdown res !! k_relational = Some (Binary64.round 0.2 4)
    ∧ Binary64.breakdown res !! k_formative = Some (Binary64.round 0.1 4)
    ∧ Binary64.breakdown res !! k_contradiction = Some (Binary64.round 0.0 4).
Proof.
  apply (proj1 fuse_binary64_composite 0.0003 0.2 0.1 0.0 Binary64.WEIGHTS
           0.50 0.35 0.15)%float; reflexivity.
Defined.

(** When the penalised sum is not a number, [min(1.0, _)] keeps its first
    argument and the composite is 100. *)
Example fuse_nan_saturates :
  Binary64.similarity_score
    <$> Binary64.fuse nan 0.2 0.1 0.0 Binary64.WEIGHTS
  = Some 100%float.
Proof. by vm_compute. Qed.

End Doubles.

(** C7: with the other three signals and the weights fixed, a larger
    contradiction signal never gives a larger composite. *)
Theorem fuse_contradiction_monotone (s r f c1 c2 : Q)
    (weights : gmap pystr Q) (ws wr wf : Q) (log : list call) :
  weights !! k_semantic = Some ws →
  weights !! k_relational = Some wr →
  weights !! k_formative = Some wf →
  (c1 <= c2)%Q →
  ∃ res1 res2,
    fuse s r f c1 weights log = (Some res1, log)
    ∧ fuse s r f c2 weights log = (Some res2, log)
    ∧ (Similarity.similarity_score res2 <= Similarity.similarity_score res1)%Q.
Proof.
  intros Hs Hr Hf Hc.
  do 2 eexists. split; [by apply FusionFacts.fuse_value|].
  split; [by apply FusionFacts.fuse_value|]. simpl.
  apply PyNumFacts.py_round_mono.
  apply Qmult_le_compat_r; [|lra].
  apply FusionFacts.clip_mono. lra.
Qed.

Lemma fuse_contradiction_monotone_witness :
  ∃ res1 res2,
    fuse 0.8 0.2 0.1 0.0 Config.WEIGHTS [] = (Some res1, [])
    ∧ fuse 0.8 0.2 0.1 0.8 Config.WEIGHTS [] = (Some res2, [])
    ∧ (Similarity.similarity_score res2 <= Similarity.similarity_score res1)%Q.
Proof.
  apply (fuse_contradiction_monotone 0.8 0.2 0.1 0.0 0.8 Config.WEIGHTS
           0.50 0.35 0.15 [])%Q; try reflexivity.
  vm_compute. discriminate.
Defined.

(** ** RelationshipClassifier *)

Module ClassifierFacts.
Import PyNumFacts.

Lemma dict_set_fresh {V} (k : pystr) (v : V) (d : list (pystr * V)) :
  k ∉ d.*1 → dict_set k v d = d ++ [(k, v)].
Proof.
  induction d as [|[k' v'] d IH]; simpl; [done|].
  intros Hk. apply not_elem_of_cons in Hk as [Hne Hk].
  rewrite bool_decide_eq_false_2 by congruence. by rewrite IH.
Qed.

Section WithCapabilities.
Context {E : External}.
Variables input_text answer : pystr.

Abbreviation scored := (Spec.scored input_text answer).
Abbreviation renders := (Spec.renders input_text answer).
Abbreviation score_entry := (score_entry input_text answer).

Lemma for_each_cons {X S} (x : X) (rest : list X) (body : X → S → Eff S)
    (st : S) (log : list call) :
  for_each (x :: rest) body st log
  = match body x st log with
    | (Some st', log') => for_each rest body st' log'
    | (None, log') => (None, log')
    end.
Proof. reflexivity. Qed.

(** On a dictionary, the loop fills [relationship_scores] with one score per
    entry, in the order of the taxonomy. *)
Lemma scores_in_order (rest : list (pystr * pystr)) :
  ∀ (scores : list (pystr * Q)) (log : list call),
    NoDup (scores.*1 ++ rest.*1) →
    renders rest →
    ∃ log',
      for_each rest score_entry scores log
      = (Some (scores ++ (scored <$> rest)), log').
Proof.
  induction rest as [|[rel_type template] rest IH]; intros scores log Hnd Hr.
  - exists log. simpl. by rewrite app_nil_r.
  - apply Forall_cons in Hr as [[hypothesis Hfmt] Hr]. simpl in Hfmt.
    assert (Hfresh : rel_type ∉ scores.*1).
    { apply NoDup_app in Hnd as (_ & Hdisj & _).
      intros Hin. apply (Hdisj _ Hin). simpl. left. }
    assert (Hstep : ∃ log1,
      score_entry (rel_type, template) scores log
      = (Some (scores ++ [scored (rel_type, template)]), log1)).
    { unfold Similarity.score_entry, Spec.scored, Spec.entry_score.
      simpl. rewrite Hfmt.
      unfold mbind, eff_bind, lift, mret, eff_ret, try_except, call_nli.
      destruct (nli_pipeline hypothesis) as [[[] confidence]|];
        eexists; rewrite dict_set_fresh by done; reflexivity. }
    destruct Hstep as [log1 Hstep].
    destruct (IH (scores ++ [scored (rel_type, template)]) log1)
      as [log' Hloop]; [|done|].
    { rewrite fmap_app. simpl. by rewrite <- app_assoc. }
    exists log'. rewrite for_each_cons, Hstep, Hloop.
    by rewrite <- app_assoc.
Qed.

(** The result of the classifier on a non-empty dictionary: the first entry,
    in declaration order, whose score is maximal. *)
Lemma analyze_first_max (taxonomy : list (pystr * pystr)) (log : list call) :
  NoDup taxonomy.*1 →
  renders taxonomy →
  taxonomy ≠ [] →
  ∃ (i : nat) (entry : pystr * pystr) (log' : list call),
    taxonomy !! i = Some entry
    ∧ analyze_relationship_type input_text answer taxonomy log
      = (Some (scored entry), log')
    ∧ (∀ j other, taxonomy !! j = Some other →
         ((scored other).2 <= (scored entry).2)%Q)
    ∧ (∀ j other, (j < i)%nat → taxonomy !! j = Some other →
         ((scored other).2 < (scored entry).2)%Q).
Proof.
  intros Hnd Hr Hne.
  destruct (scores_in_order taxonomy [] log) as [log' Hloop]; [done..|].
  simpl in Hloop.
  unfold analyze_relationship_type.
  unfold mbind, eff_bind. rewrite Hloop.
  destruct taxonomy as [|first rest]; [done|]. simpl.
  destruct (max_by_from_first snd (scored <$> rest) (scored first))
    as (i & Hi & Hall & Hbefore).
  change (scored first :: (scored <$> rest))
    with (scored <$> (first :: rest)) in Hi, Hall, Hbefore.
  rewrite list_lookup_fmap in Hi.
  destruct ((first :: rest) !! i) as [entry|] eqn:Hentry; [|done].
  simpl in Hi. injection Hi as Hi.
  rewrite <- Hi in Hall, Hbefore.
  exists i, entry, log'. unfold fmap in Hi. rewrite <- Hi. split; [done|].
  split; [by destruct (scored entry)|]. split.
  - intros j other Hj. apply (Hall j (scored other)).
    by rewrite list_lookup_fmap, Hj.
  - intros j other Hlt Hj. apply (Hbefore j (scored other)); [done|].
    by rewrite list_lookup_fmap, Hj.
Qed.

End WithCapabilities.
End ClassifierFacts.

(** C1 (as stated, refuted): with the configured taxonomy and a classifier
    that never answers entailment, every entry scores 0, yet the result is
    the first type of the taxonomy, [상황발생], with confidence 0, and not
    the fallback [일반]. *)
Lemma analyze_no_entailment_not_general :
  let E := Mock.external Mock.all_neutral in
  Forall (λ entry, Spec.entry_score (py "친구") (py "배신") entry.2 = 0%Q)
    Config.RELATIONSHIP_ANALYSIS_TEMPLATES
  ∧ (analyze_relationship_type (py "친구") (py "배신")
       Config.RELATIONSHIP_ANALYSIS_TEMPLATES []).1
    = Some (py "상황발생", 0%Q)
  ∧ py "상황발생" ≠ general.
Proof.
  split; [|split].
  - repeat (constructor; [by vm_compute|]). constructor.
  - by vm_compute.
  - by vm_compute.
Qed.

(** C1 (amended): on the empty taxonomy the result is the fallback
    [(일반, 0.0)] and no model is called; on a non-empty taxonomy whose
    entries all score 0 the result is the type of the first entry with
    confidence 0; and a confidence above zero is returned only when some
    entry scores above zero. *)
Theorem analyze_relationship_type_zero_scores `{E : External}
    (input_text answer : pystr) :
  (∀ log,
     analyze_relationship_type input_text answer [] log
     = (Some (general, 0%Q), log))
  ∧ (∀ first rest log,
       NoDup (first :: rest).*1 →
       Spec.renders input_text answer (first :: rest) →
       Forall (λ entry, (Spec.entry_score input_text answer entry.2 == 0)%Q)
         (first :: rest) →
       ∃ confidence log',
         analyze_relationship_type input_text answer (first :: rest) log
         = (Some (first.1, confidence), log')
         ∧ (confidence == 0)%Q)
  ∧ (∀ taxonomy log rel_type confidence log',
       NoDup taxonomy.*1 →
       Spec.renders input_text answer taxonomy →
       analyze_relationship_type input_text answer taxonomy log
       = (Some (rel_type, confidence), log') →
       (0 < confidence)%Q →
       ∃ entry,
         entry ∈ taxonomy
         ∧ (0 < Spec.entry_score input_text answer entry.2)%Q).
Proof.
  split; [done|]. split.
  - intros first rest log Hnd Hr Hzero.
    destruct (ClassifierFacts.analyze_first_max input_text answer
                (first :: rest) log Hnd Hr)
      as (i & entry & log' & Hentry & Hres & _ & Hbefore); [done|].
    destruct i as [|i].
    + simpl in Hentry. injection Hentry as <-.
      exists (Spec.entry_score input_text answer first.2), log'.
      split; [done|]. by apply Forall_inv in Hzero.
    + exfalso.
      assert (H0 : (Spec.entry_score input_text answer first.2 == 0)%Q)
        by (by apply Forall_inv in Hzero).
      assert (He : (Spec.entry_score input_text answer entry.2 == 0)%Q).
      { rewrite Forall_forall in Hzero. apply Hzero.
        by eapply list_elem_of_lookup_2. }
      specialize (Hbefore 0%nat first (Nat.lt_0_succ i) eq_refl).
      simpl in Hbefore. lra.
  - intros taxonomy log rel_type confidence log' Hnd Hr Hres Hpos.
    destruct taxonomy as [|first rest].
    + injection Hres as _ <- _. lra.
    + destruct (ClassifierFacts.analyze_first_max input_text answer
                  (first :: rest) log Hnd Hr)
        as (i & entry & log'' & Hentry & Hres' & _); [done|].
      rewrite Hres' in Hres. injection Hres as _ <- _.
      exists entry. split; [by eapply list_elem_of_lookup_2 | done].
Qed.

Lemma analyze_relationship_type_zero_scores_witness :
  let E := Mock.external Mock.all_neutral in
  ∃ confidence log',
    analyze_relationship_type (py "친구") (py "배신")
      Config.RELATIONSHIP_ANALYSIS_TEMPLATES []
    = (Some (py "상황발생", confidence), log')
    ∧ (confidence == 0)%Q.
Proof.
  intros E.
  apply (proj1 (proj2 (analyze_relationship_type_zero_scores
                         (py "친구") (py "배신")))).
  - compute_done.
  - compute_done.
  - repeat (constructor; [by vm_compute|]). constructor.
Defined.

(** C5: on a taxonomy given as a dictionary whose templates render, the
    classifier returns the entry of maximal score, and among several entries
    of maximal score the one declared first: no entry scores more than the
    returned one and every entry declared before it scores strictly less. *)
Theorem analyze_relationship_type_first_maximum `{E : External}
    (input_text answer : pystr) (taxonomy : list (pystr * pystr))
    (log : list call) :
  NoDup taxonomy.*1 →
  Spec.renders input_text answer taxonomy →
  taxonomy ≠ [] →
  ∃ (i : nat) (rel_type template : pystr) (log' : list call),
    taxonomy !! i = Some (rel_type, template)
    ∧ analyze_relationship_type input_text answer taxonomy log
      = (Some (rel_type, Spec.entry_score input_text answer template), log')
    ∧ (∀ j other_type other_template,
         taxonomy !! j = Some (other_type, other_template) →
         (Spec.entry_score input_text answer other_template
          <= Spec.entry_score input_text answer template)%Q)
    ∧ (∀ j other_type other_template,
         (j < i)%nat →
         taxonomy !! j = Some (other_type, other_template) →
         (Spec.entry_score input_text answer other_template
          < Spec.entry_score input_text answer template)%Q).
Proof.
  intros Hnd Hr Hne.
  destruct (ClassifierFacts.analyze_first_max input_text answer taxonomy log
              Hnd Hr Hne)
    as (i & [rel_type template] & log' & Hentry & Hres & Hall & Hbefore).
  exists i, rel_type, template, log'. split; [done|]. split; [done|]. split.
  - intros j ty tpl Hj. apply (Hall j (ty, tpl) Hj).
  - intros j ty tpl Hlt Hj. apply (Hbefore j (ty, tpl) Hlt Hj).
Qed.

Lemma analyze_relationship_type_first_maximum_witness :
  let E := Mock.external Mock.part_or_result in
  let taxonomy := Config.RELATIONSHIP_ANALYSIS_TEMPLATES in
  ∃ (i : nat) (rel_type template : pystr) (log' : list call),
    taxonomy !! i = Some (rel_type, template)
    ∧ analyze_relationship_type (py "친구") (py "배신") taxonomy []
      = (Some (rel_type, Spec.entry_score (py "친구") (py "배신") template), log')
    ∧ (∀ j other_type other_template,
         taxonomy !! j = Some (other_type, other_template) →
         (Spec.entry_score (py "친구") (py "배신") other_template
          <= Spec.entry_score (py "친구") (py "배신") template)%Q)
    ∧ (∀ j other_type other_template,
         (j < i)%nat →
         taxonomy !! j = Some (other_type, other_template) →
         (Spec.entry_score (py "친구") (py "배신") other_template
          < Spec.entry_score (py "친구") (py "배신") template)%Q).
Proof.
  intros E taxonomy.
  apply (analyze_relationship_type_first_maximum (py "친구") (py "배신")).
  - compute_done.
  - compute_done.
  - by vm_compute.
Defined.

(** Two entries tie at 0.8, [부분전체] (eighth) and [결과관계] (tenth); the
    eighth is returned. *)
Example analyze_tie_first :
  let E := Mock.external Mock.part_or_result in
  (analyze_relationship_type (py "친구") (py "배신")
     Config.RELATIONSHIP_ANALYSIS_TEMPLATES []).1
  = Some (py "부분전체", 0.8%Q)
  ∧ Spec.entry_score (py "친구") (py "배신")
      (py "{answer}는 {input}의 결과로 생기는 것이다.") = 0.8%Q.
Proof. split; by vm_compute. Qed.

(** ** The exact-match path *)

(** C2: when the two normalised strings are equal, the combined similarity
    is exactly [{similarity_score: 100.0, breakdown: {semantic: 1.0,
    relational: 1.0, formative: 1.0, contradiction: 0.0}}] and the log of
    model calls is left as it was: neither the embedding model nor the
    classifier is called.  The request handler answers in the same way
    before it reaches the scorers. *)
Theorem exact_match_short_circuit `{U : Unicode} `{E : External}
    (guess answer : pystr) (weights : gmap pystr Q)
    (nli_templates contradiction_templates : list pystr) (log : list call) :
  normalize_text guess = normalize_text answer →
  calculate_combined_similarity guess answer weights
    nli_templates contradiction_templates log
  = (Some {| Similarity.similarity_score := 100;
             Similarity.breakdown := make_breakdown 1 1 1 0 |}, log)
  ∧ Main.calculate_similarity guess answer log
    = (Some {| Main.similarity_score := 100;
               Main.hint := Main.identical_hint;
               Main.category_match := true;
               Main.breakdown := make_breakdown 1 1 1 0 |}, log).
Proof.
  intros Heq.
  unfold calculate_combined_similarity, Main.calculate_similarity.
  by rewrite !bool_decide_eq_true_2.
Qed.

Lemma exact_match_short_circuit_witness :
  let U := Latin1.tables in
  let E := Mock.external Mock.all_neutral in
  calculate_combined_similarity (py "Friend ") (py "friend") Config.WEIGHTS
    Config.NLI_TEMPLATES Config.CONTRADICTION_TEMPLATES []
  = (Some {| Similarity.similarity_score := 100;
             Similarity.breakdown := make_breakdown 1 1 1 0 |}, [])
  ∧ Main.calculate_similarity (py "Friend ") (py "friend") []
    = (Some {| Main.similarity_score := 100;
               Main.hint := Main.identical_hint;
               Main.category_match := true;
               Main.breakdown := make_breakdown 1 1 1 0 |}, []).
Proof.
  intros U E.
  apply (exact_match_short_circuit (py "Friend ") (py "friend")).
  reflexivity.
Defined.

(** Off the exact-match path the models are called: one embedding call, then
    one classification per affirmative and per contradiction template. *)
Example general_path_calls :
  let U := Latin1.tables in
  let E := Mock.external Mock.all_neutral in
  length (calculate_combined_similarity (py "친구") (py "배신") Config.WEIGHTS
            Config.NLI_TEMPLATES Config.CONTRADICTION_TEMPLATES []).2
  = 7%nat
  ∧ (Similarity.similarity_score <$>
       (calculate_combined_similarity (py "친구") (py "배신") Config.WEIGHTS
          Config.NLI_TEMPLATES Config.CONTRADICTION_TEMPLATES []).1)
    = Some 65.75%Q.
Proof. split; by vm_compute. Qed.

(** ** HintSelector *)

Module HintFacts.
Import PyNumFacts PyStrFacts.

Lemma first_reached_some (score : Q) (thresholds : list Z) (k0 : Z) :
  k0 ∈ thresholds → (inject_Z k0 <= score)%Q →
  ∃ k, first_reached score thresholds = Some k ∧ k ∈ thresholds.
Proof.
  induction thresholds as [|t rest IH]; intros Hin Hle.
  - by apply elem_of_nil in Hin.
  - simpl. destruct (Qgeb score (inject_Z t)) eqn:Hcmp.
    + exists t. split; [done | left].
    + apply Qgeb_lt in Hcmp.
      apply elem_of_cons in Hin as [->|Hin]; [lra|].
      destruct (IH Hin Hle) as (k & Hk & Hkin).
      exists k. split; [done | by right].
Qed.

Lemma first_reached_elem (score : Q) (thresholds : list Z) (k : Z) :
  first_reached score thresholds = Some k → k ∈ thresholds.
Proof.
  induction thresholds as [|t rest IH]; simpl; [done|].
  destruct (Qgeb score (inject_Z t)).
  - intros [= ->]. left.
  - intros Hk. right. by apply IH.
Qed.

Lemma thresholds_descending_elem (self : HintGenerator) (k : Z) :
  k ∈ thresholds_descending self ↔ is_Some (hint_thresholds self !! k).
Proof.
  unfold thresholds_descending.
  rewrite elem_of_reverse, merge_sort_Permutation.
  change (map fst (map_to_list (hint_thresholds self)))
    with ((map_to_list (hint_thresholds self)).*1).
  rewrite list_elem_of_fmap. split.
  - intros ([k' v] & -> & Hin). apply elem_of_map_to_list in Hin. by exists v.
  - intros [v Hv]. exists (k, v). split; [done|].
    by apply elem_of_map_to_list.
Qed.

(** With a threshold 0, a non-negative score always finds its base hint
    among the configured ones. *)
Lemma get_base_hint_some (self : HintGenerator) (score : Q) :
  (0 <= score)%Q →
  is_Some (hint_thresholds self !! 0) →
  ∃ k v, _get_base_hint self score = Some v
         ∧ hint_thresholds self !! k = Some v.
Proof.
  intros Hpos H0. unfold _get_base_hint.
  destruct (first_reached_some score (thresholds_descending self) 0)
    as (k & Hk & Hkin); [by apply thresholds_descending_elem | done |].
  rewrite Hk. apply thresholds_descending_elem in Hkin as [v Hv].
  by exists k, v.
Qed.

Lemma detail_hint_contradiction (self : HintGenerator) (breakdown : gmap pystr Q)
    (score : Q) :
  (0.6 < default 0 (breakdown !! k_contradiction))%Q →
  _get_detail_hint self breakdown score = opposite_hint.
Proof.
  intros Hc. unfold _get_detail_hint.
  unfold Qgtb. by rewrite (proj2 (Qltb_lt _ _) Hc).
Qed.

(** The detail hint reads the suffix table at three keys only. *)
Lemma detail_hint_ext (self1 self2 : HintGenerator) (breakdown : gmap pystr Q)
    (score : Q) :
  detail_suffixes self1 !! k_semantic_high
  = detail_suffixes self2 !! k_semantic_high →
  detail_suffixes self1 !! k_relational_high
  = detail_suffixes self2 !! k_relational_high →
  detail_suffixes self1 !! k_formative_high
  = detail_suffixes self2 !! k_formative_high →
  _get_detail_hint self1 breakdown score = _get_detail_hint self2 breakdown score.
Proof.
  intros Hs Hr Hf. unfold _get_detail_hint. by rewrite Hs, Hr, Hf.
Qed.

Lemma contextual_hint_ext (self1 self2 : HintGenerator) (user_input : pystr)
    (score : Q) (relationship_type : option pystr) (confidence : Q) :
  contextual_templates self1 = contextual_templates self2 →
  _generate_contextual_hint self1 user_input score relationship_type confidence
  = _generate_contextual_hint self2 user_input score relationship_type confidence.
Proof. intros Hc. unfold _generate_contextual_hint. by rewrite Hc. Qed.

Lemma base_hint_ext (self1 self2 : HintGenerator) (score : Q) :
  hint_thresholds self1 = hint_thresholds self2 →
  _get_base_hint self1 score = _get_base_hint self2 score.
Proof.
  intros Ht. unfold _get_base_hint, thresholds_descending. by rewrite Ht.
Qed.

(** The composition step of [generate_hint] below a score of 100, in terms
    of the two hints it combines. *)
Lemma generate_hint_compose (self : HintGenerator) (score : Q)
    (breakdown : gmap pystr Q) (user_input answer : pystr)
    (relationship_type : option pystr) (confidence : Q) :
  Qeq_bool score 100 = false →
  generate_hint self score breakdown user_input answer relationship_type
    confidence
  = let contextual_hint :=
      _generate_contextual_hint self user_input score relationship_type
        confidence in
    let detail_hint := _get_detail_hint self breakdown score in
    if truthy contextual_hint then
      if truthy detail_hint && Qgeb score 60
      then Some (contextual_hint ++ py ". " ++ detail_hint)
      else Some contextual_hint
    else
      base_hint ← _get_base_hint self score;
      if truthy detail_hint
      then Some (base_hint ++ py " " ++ detail_hint)
      else Some base_hint.
Proof. intros Hne. unfold generate_hint. by rewrite Hne. Qed.

End HintFacts.

(** C6: when both the contextual hint and the detail hint are non-empty, a
    score below 60 returns the contextual hint alone, a score of at least 60
    (other than the 100 answered before any composition) returns
    ["{contextual}. {detail}"], and that string is returned only if the score
    is at least 60.  In particular, with contradiction 0.7 and score 55 the
    detail hint is the opposite-meaning literal, and when a contextual hint
    exists the result is the contextual hint alone. *)
Theorem generate_hint_detail_gate (self : HintGenerator)
    (breakdown : gmap pystr Q) (user_input answer : pystr)
    (relationship_type : option pystr) (confidence : Q) :
  (∀ score : Q,
     let contextual_hint :=
       _generate_contextual_hint self user_input score relationship_type
         confidence in
     let detail_hint := _get_detail_hint self breakdown score in
     let result :=
       generate_hint self score breakdown user_input answer relationship_type
         confidence in
     contextual_hint ≠ [] → detail_hint ≠ [] →
     ((score < 60)%Q → result = Some contextual_hint)
     ∧ ((60 <= score)%Q → ¬ (score == 100)%Q →
        result = Some (contextual_hint ++ py ". " ++ detail_hint))
     ∧ (result = Some (contextual_hint ++ py ". " ++ detail_hint) →
        (60 <= score)%Q))
  ∧ (let contextual_hint :=
       _generate_contextual_hint self user_input 55 relationship_type
         confidence in
     breakdown !! k_contradiction = Some 0.7%Q →
     contextual_hint ≠ [] →
     _get_detail_hint self breakdown 55 = opposite_hint
     ∧ opposite_hint ≠ []
     ∧ generate_hint self 55 breakdown user_input answer relationship_type
         confidence
       = Some contextual_hint).
Proof.
  assert (Hgate : ∀ score : Q,
    _generate_contextual_hint self user_input score relationship_type
      confidence ≠ [] →
    (score < 60)%Q →
    generate_hint self score breakdown user_input answer relationship_type
      confidence
    = Some (_generate_contextual_hint self user_input score relationship_type
              confidence)).
  { intros score Hctx Hlt.
    rewrite HintFacts.generate_hint_compose.
    - simpl. rewrite (proj2 (PyStrFacts.truthy_true _) Hctx).
      rewrite (proj2 (PyNumFacts.Qgeb_lt _ _) Hlt).
      by rewrite andb_false_r.
    - destruct (Qeq_bool score 100) eqn:E; [|done].
      apply Qeq_bool_iff in E. lra. }
  split.
  - intros score contextual_hint detail_hint result Hctx Hdet.
    split; [by apply Hgate|]. split.
    + intros Hge Hne. unfold result.
      rewrite HintFacts.generate_hint_compose.
      * simpl. fold contextual_hint detail_hint.
        rewrite (proj2 (PyStrFacts.truthy_true _) Hctx).
        rewrite (proj2 (PyStrFacts.truthy_true _) Hdet).
        by rewrite (proj2 (PyNumFacts.Qgeb_ge _ _) Hge).
      * destruct (Qeq_bool score 100) eqn:E; [|done].
        by apply Qeq_bool_iff in E.
    + intros Hres. destruct (Qlt_le_dec score 60) as [Hlt|Hge]; [|done].
      exfalso. unfold result in Hres. rewrite (Hgate score Hctx Hlt) in Hres.
      injection Hres as Hres. fold contextual_hint in Hres.
      rewrite <- (app_nil_r contextual_hint) in Hres at 1.
      by apply app_inv_head in Hres.
  - intros contextual_hint Hc Hctx.
    split; [|split; [done|]].
    + apply HintFacts.detail_hint_contradiction. rewrite Hc. simpl. lra.
    + apply Hgate; [done | lra].
Qed.

Lemma generate_hint_detail_gate_witness :
  let self := Config.hint_generator in
  let breakdown := make_breakdown 0.5 0.5 0.5 0.7 in
  let contextual_hint :=
    _generate_contextual_hint self (py "친구") 55 (Some (py "사람관계")) 0.8 in
  let detail_hint := _get_detail_hint self breakdown 55 in
  let result :=
    generate_hint self 55 breakdown (py "친구") (py "배신")
      (Some (py "사람관계")) 0.8 in
  ((55 < 60)%Q → result = Some contextual_hint)
  ∧ ((60 <= 55)%Q → ¬ (55 == 100)%Q →
     result = Some (contextual_hint ++ py ". " ++ detail_hint))
  ∧ (result = Some (contextual_hint ++ py ". " ++ detail_hint) →
     (60 <= 55)%Q).
Proof.
  intros self breakdown.
  apply (proj1 (generate_hint_detail_gate self breakdown (py "친구")
                  (py "배신") (Some (py "사람관계")) 0.8%Q) 55%Q);
    by vm_compute.
Defined.

(** Scenario E and the boundary of the gate, on the configured tables. *)
Example generate_hint_boundary :
  let breakdown := make_breakdown 0.5 0.5 0.5 0.7 in
  let hint score :=
    generate_hint Config.hint_generator score breakdown (py "친구") (py "배신")
      (Some (py "사람관계")) 0.8 in
  hint 55%Q = Some (py "친구 사이에서 나타나는 것이에요")
  ∧ hint 59.99%Q = Some (py "친구 사이에서 나타나는 것이에요")
  ∧ hint 60%Q
    = Some (py "친구 사이에서 나타나는 것이에요. 하지만 반대 의미는 아니에요").
Proof. repeat split; by vm_compute. Qed.

(** C9: above a contradiction of 0.6 the detail hint is the literal of the
    code whatever the suffix table holds; two generators that differ only in
    the entry [contradiction] of their suffix tables return the same hint on
    every input; and the configured entry is a different string from the
    literal. *)
Theorem contradiction_suffix_ignored :
  (∀ (self : HintGenerator) (breakdown : gmap pystr Q) (score : Q),
     (0.6 < default 0 (breakdown !! k_contradiction))%Q →
     _get_detail_hint self breakdown score = opposite_hint)
  ∧ (∀ (self1 self2 : HintGenerator) (score : Q) (breakdown : gmap pystr Q)
       (user_input answer : pystr) (relationship_type : option pystr)
       (confidence : Q),
       hint_thresholds self1 = hint_thresholds self2 →
       contextual_templates self1 = contextual_templates self2 →
       delete k_contradiction (detail_suffixes self1)
       = delete k_contradiction (detail_suffixes self2) →
       generate_hint self1 score breakdown user_input answer
         relationship_type confidence
       = generate_hint self2 score breakdown user_input answer
           relationship_type confidence)
  ∧ (Config.DETAIL_HINT_SUFFIX !! k_contradiction
     = Some (py "하지만 정반대 의미는 아니에요")
     ∧ py "하지만 정반대 의미는 아니에요" ≠ opposite_hint).
Proof.
  split; [apply HintFacts.detail_hint_contradiction|]. split.
  - intros self1 self2 score breakdown user_input answer relationship_type
      confidence Ht Hc Hd.
    assert (Hk : ∀ k, k ≠ k_contradiction →
              detail_suffixes self1 !! k = detail_suffixes self2 !! k).
    { intros k Hne.
      rewrite <- (lookup_delete_ne (detail_suffixes self1) k_contradiction k)
        by done.
      rewrite Hd. by apply lookup_delete_ne. }
    unfold generate_hint.
    rewrite (HintFacts.contextual_hint_ext self1 self2 _ _ _ _ Hc).
    rewrite (HintFacts.base_hint_ext self1 self2 _ Ht).
    by rewrite (HintFacts.detail_hint_ext self1 self2 breakdown score)
      by (by apply Hk).
  - split; by vm_compute.
Qed.

Lemma contradiction_suffix_ignored_witness :
  let self1 := Config.hint_generator in
  let self2 :=
    {| hint_thresholds := Config.HINT_THRESHOLDS;
       contextual_templates := Config.CONTEXTUAL_HINT_TEMPLATES;
       detail_suffixes :=
         <[k_contradiction := py "정반대예요"]> Config.DETAIL_HINT_SUFFIX |} in
  let breakdown := make_breakdown 0.5 0.5 0.5 0.7 in
  generate_hint self1 70 breakdown (py "친구") (py "배신") None 0
  = generate_hint self2 70 breakdown (py "친구") (py "배신") None 0.
Proof.
  intros self1 self2 breakdown.
  apply (proj1 (proj2 contradiction_suffix_ignored) self1 self2);
    by vm_compute.
Defined.

(** C10: for a non-negative score, a threshold table that has the key 0 and
    only non-empty hints, and any breakdown, input and classification,
    [generate_hint] returns a string, and that string is not empty. *)
Theorem generate_hint_nonempty (self : HintGenerator) (score : Q)
    (breakdown : gmap pystr Q) (user_input answer : pystr)
    (relationship_type : option pystr) (confidence : Q) :
  (0 <= score)%Q →
  is_Some (hint_thresholds self !! 0) →
  map_Forall (λ _ base_hint, base_hint ≠ []) (hint_thresholds self) →
  ∃ hint,
    generate_hint self score breakdown user_input answer relationship_type
      confidence = Some hint
    ∧ hint ≠ [].
Proof.
  intros Hpos H0 Hne. unfold generate_hint.
  destruct (Qeq_bool score 100); [by eexists|].
  destruct (truthy (_generate_contextual_hint _ _ _ _ _)) eqn:Hctx.
  - apply PyStrFacts.truthy_true in Hctx.
    destruct (_ && _); eexists; (split; [done|]); [|done].
    by apply PyStrFacts.app_nonempty_l.
  - destruct (HintFacts.get_base_hint_some self score Hpos H0)
      as (k & v & Hbase & Hv).
    rewrite Hbase. simpl. specialize (Hne k v Hv). simpl in Hne.
    destruct (truthy (_get_detail_hint _ _ _)); eexists;
      (split; [done|]); [|done].
    by apply PyStrFacts.app_nonempty_l.
Qed.

Lemma generate_hint_nonempty_witness :
  ∃ hint,
    generate_hint Config.hint_generator 70 (make_breakdown 0.9 0.2 0.1 0)
      (py "친구") (py "배신") (Some (py "사람관계")) 0.2 = Some hint
    ∧ hint ≠ [].
Proof.
  apply generate_hint_nonempty.
  - by vm_compute.
  - compute_done.
  - compute_done.
Defined.

(** Scenario D: a confidence below 0.3 leaves the base hint of the score
    band, here followed by the semantic suffix. *)
Example generate_hint_low_confidence :
  generate_hint Config.hint_generator 70 (make_breakdown 0.9 0.2 0.1 0)
    (py "친구") (py "배신") (Some (py "사람관계")) 0.2
  = Some (py "비슷한 방향이에요. 더 구체적으로 표현해보세요. 의미적으로 매우 가까워요").
Proof. by vm_compute. Qed.

(** The scenarios of C3 on binary64: the scaled sums carry a rounding error
    in the last place, and [round(_, 2)] of their exact values is again 48.5
    and 36.5. *)
Example fuse_scenarios_binary64 :
  (48.5 < Binary64.exact Binary64.scenario_B < 48.5000001)%Q
  ∧ (py_round (Binary64.exact Binary64.scenario_B) 2 == 48.5)%Q
  ∧ (py_round (Binary64.exact Binary64.scenario_C) 2 == 36.5)%Q.
Proof. repeat split; by vm_compute. Qed.

(** * Further properties of the code *)

(** ** The edit distance as a metric *)

Module LevMetric.
Section Sequences.
Context {A : Type} `{EqDecision A}.

#[local] Arguments lev : simpl never.

Lemma lev_cons_l_le (x : A) (a b : list A) :
  (lev (x :: a) b ≤ lev a b + 1)%nat.
Proof.
  destruct b as [|y b].
  - rewrite !FormativeFacts.lev_nil_r. simpl. lia.
  - rewrite FormativeFacts.lev_cons. lia.
Qed.

Lemma lev_cons_r_le (y : A) (a b : list A) :
  (lev a (y :: b) ≤ lev a b + 1)%nat.
Proof.
  rewrite (FormativeFacts.lev_sym a (y :: b)), (FormativeFacts.lev_sym a b).
  apply lev_cons_l_le.
Qed.

Lemma lev_refl (a : list A) : lev a a = 0%nat.
Proof.
  induction a as [|x a IH]; [done|].
  rewrite FormativeFacts.lev_cons, IH.
  destruct (decide (x = x)); [lia | done].
Qed.

Lemma lev_zero_eq (a b : list A) : lev a b = 0%nat → a = b.
Proof.
  revert b. induction a as [|x a IH]; intros [|y b].
  - done.
  - rewrite FormativeFacts.lev_nil_l. simpl. lia.
  - rewrite FormativeFacts.lev_nil_r. simpl. lia.
  - rewrite FormativeFacts.lev_cons. intros Hz.
    destruct (decide (x = y)) as [->|Hne]; [|lia].
    f_equal. apply IH. lia.
Qed.

Lemma lev_length_diff (a b : list A) :
  (length a ≤ lev a b + length b)%nat ∧ (length b ≤ lev a b + length a)%nat.
Proof.
  revert b. induction a as [|x a IHa]; intros b.
  - rewrite FormativeFacts.lev_nil_l. simpl. lia.
  - induction b as [|y b IHb].
    + rewrite FormativeFacts.lev_nil_r. simpl. lia.
    + rewrite FormativeFacts.lev_cons.
      pose proof (IHa (y :: b)) as H1. pose proof (IHa b) as H2.
      simpl in *. destruct (decide (x = y)); lia.
Qed.

Lemma lev_le_max (a b : list A) : (lev a b ≤ length a `max` length b)%nat.
Proof.
  revert b. induction a as [|x a IHa]; intros [|y b].
  - done.
  - rewrite FormativeFacts.lev_nil_l. simpl. lia.
  - rewrite FormativeFacts.lev_nil_r. simpl. lia.
  - rewrite FormativeFacts.lev_cons. pose proof (IHa b). simpl.
    destruct (decide (x = y)); lia.
Qed.

Lemma lev_triangle (a b c : list A) : (lev a c ≤ lev a b + lev b c)%nat.
Proof.
  revert b c. induction a as [|x a IHa]; intros b c.
  - rewrite !FormativeFacts.lev_nil_l.
    pose proof (lev_length_diff b c). lia.
  - revert c. induction b as [|y b IHb]; intros c.
    + rewrite FormativeFacts.lev_nil_r, FormativeFacts.lev_nil_l.
      pose proof (lev_le_max (x :: a) c). lia.
    + induction c as [|z c IHc].
      * rewrite !FormativeFacts.lev_nil_r.
        pose proof (lev_length_diff (x :: a) (y :: b)). lia.
      * pose proof (IHa (y :: b) (z :: c)) as T1.
        pose proof (IHa b (z :: c)) as T2.
        pose proof (IHa b c) as T3.
        pose proof (IHb (z :: c)) as T4.
        pose proof (IHb c) as T5.
        pose proof (lev_cons_l_le x a (z :: c)) as L1.
        pose proof (lev_cons_r_le z (x :: a) c) as L2.
        assert (L3 : (lev (x :: a) (z :: c)
                      ≤ lev a c + (if decide (x = z) then 0 else 1))%nat)
          by (rewrite FormativeFacts.lev_cons; lia).
        pose proof (FormativeFacts.lev_cons x y a b) as E1.
        pose proof (FormativeFacts.lev_cons y z b c) as E2.
        destruct (decide (x = y)), (decide (y = z)), (decide (x = z));
          try congruence; lia.
Qed.

(** The distance computed by the loops, always defined, with the facts of
    the recurrence carried over. *)
Lemma distance_defined (s1 s2 : list A) :
  _levenshtein_distance s1 s2 = Some (lev (rev s1) (rev s2)).
Proof. apply FormativeFacts.levenshtein_distance_lev. Qed.

Lemma rev_inj (s1 s2 : list A) : rev s1 = rev s2 → s1 = s2.
Proof.
  intros Hr. rewrite <- (rev_involutive s1), <- (rev_involutive s2).
  by rewrite Hr.
Qed.

(** What [calculate_formative_similarity] needs of the distance. *)
Lemma levenshtein_distance_bounds_aux (s1 s2 : list A) :
  ∃ d : nat,
    _levenshtein_distance s1 s2 = Some d
    ∧ (d ≤ length s1 `max` length s2)%nat
    ∧ (d = 0%nat ↔ s1 = s2).
Proof.
  exists (lev (rev s1) (rev s2)). split; [apply distance_defined|].
  pose proof (lev_le_max (rev s1) (rev s2)) as Hmax.
  rewrite !length_rev in Hmax. split; [done|]. split.
  - intros Hz. by apply rev_inj, lev_zero_eq.
  - intros ->. apply lev_refl.
Qed.

End Sequences.
End LevMetric.

(** X1: the edit distance of two sequences is 0 exactly when they are the
    same sequence. *)
Theorem levenshtein_distance_zero {A : Type} `{EqDecision A} (s1 s2 : list A) :
  _levenshtein_distance s1 s2 = Some 0%nat ↔ s1 = s2.
Proof.
  rewrite LevMetric.distance_defined. split.
  - intros [= Hz]. by apply LevMetric.rev_inj, LevMetric.lev_zero_eq.
  - intros ->. by rewrite LevMetric.lev_refl.
Qed.

(** X2: the edit distance is always defined and lies between the difference
    of the two lengths and the greater of them; against the empty sequence
    it is the length of the other. *)
Theorem levenshtein_distance_bounds {A : Type} `{EqDecision A} (s1 s2 : list A) :
  ∃ d : nat,
    _levenshtein_distance s1 s2 = Some d
    ∧ (length s1 - length s2 ≤ d)%nat
    ∧ (length s2 - length s1 ≤ d)%nat
    ∧ (d ≤ length s1 `max` length s2)%nat
    ∧ (s2 = [] → d = length s1)
    ∧ (s1 = [] → d = length s2).
Proof.
  exists (lev (rev s1) (rev s2)).
  split; [apply LevMetric.distance_defined|].
  pose proof (LevMetric.lev_length_diff (rev s1) (rev s2)) as [H1 H2].
  pose proof (LevMetric.lev_le_max (rev s1) (rev s2)) as H3.
  rewrite !length_rev in *.
  repeat split; try lia.
  - intros ->. change (rev (@nil A)) with (@nil A).
    by rewrite FormativeFacts.lev_nil_r, length_rev.
  - intros ->. change (rev (@nil A)) with (@nil A).
    by rewrite FormativeFacts.lev_nil_l, length_rev.
Qed.

(** X3: the edit distance satisfies the triangle inequality. *)
Theorem levenshtein_distance_triangle {A : Type} `{EqDecision A}
    (s1 s2 s3 : list A) :
  ∃ d12 d23 d13 : nat,
    _levenshtein_distance s1 s2 = Some d12
    ∧ _levenshtein_distance s2 s3 = Some d23
    ∧ _levenshtein_distance s1 s3 = Some d13
    ∧ (d13 ≤ d12 + d23)%nat.
Proof.
  exists (lev (rev s1) (rev s2)), (lev (rev s2) (rev s3)),
         (lev (rev s1) (rev s3)).
  rewrite !LevMetric.distance_defined.
  repeat split. apply LevMetric.lev_triangle.
Qed.

(** ** The formative score *)

Module FormativeRange.
Import PyNumFacts.

Lemma ratio_bounds (d m : nat) :
  (d ≤ m)%nat → (0 < m)%nat →
  (0 <= 1 - inject_Z (Z.of_nat d) / inject_Z (Z.of_nat m) <= 1)%Q.
Proof.
  intros Hdm Hm.
  assert (Hm' : (0 < inject_Z (Z.of_nat m))%Q).
  { change 0%Q with (inject_Z 0). rewrite <- Zlt_Qlt. lia. }
  assert (Hd' : (0 <= inject_Z (Z.of_nat d))%Q).
  { change 0%Q with (inject_Z 0). rewrite <- Zle_Qle. lia. }
  assert (Hdm' : (inject_Z (Z.of_nat d) <= inject_Z (Z.of_nat m))%Q).
  { rewrite <- Zle_Qle. lia. }
  assert (H1 : (inject_Z (Z.of_nat d) / inject_Z (Z.of_nat m) <= 1)%Q).
  { apply Qle_shift_div_r; [done | lra]. }
  assert (H0 : (0 <= inject_Z (Z.of_nat d) / inject_Z (Z.of_nat m))%Q).
  { apply Qle_shift_div_l; [done | lra]. }
  lra.
Qed.

Lemma ratio_one (d m : nat) :
  (0 < m)%nat →
  (1 - inject_Z (Z.of_nat d) / inject_Z (Z.of_nat m) == 1)%Q ↔ d = 0%nat.
Proof.
  intros Hm.
  assert (Hm' : (0 < inject_Z (Z.of_nat m))%Q).
  { change 0%Q with (inject_Z 0). rewrite <- Zlt_Qlt. lia. }
  split.
  - intros Heq. destruct d as [|d]; [done|]. exfalso.
    assert (Hpos : (0 < inject_Z (Z.of_nat (S d)))%Q).
    { change 0%Q with (inject_Z 0). rewrite <- Zlt_Qlt. lia. }
    assert (Hq : (0 < inject_Z (Z.of_nat (S d)) / inject_Z (Z.of_nat m))%Q).
    { apply Qlt_shift_div_l; [done | lra]. }
    lra.
  - intros ->. simpl. unfold Qdiv. rewrite Qmult_0_l. lra.
Qed.

Lemma py_max_0_nonneg (x : Q) : (0 <= x)%Q → py_max 0 x = x ∨ (x == 0)%Q ∧ py_max 0 x = 0%Q.
Proof.
  intros Hx. unfold py_max. case_Qltb 0%Q x; [by left|].
  right. split; [lra | done].
Qed.

End FormativeRange.

(** X4: the formative similarity is always defined and lies in [0, 1]; it is
    1 exactly when the two decomposed strings are the same; otherwise it is
    [1 - distance / max_len], the floor at 0 never being reached. *)
Theorem calculate_formative_similarity_range (h2j : pystr → pystr)
    (input_text answer : pystr) :
  ∃ similarity : Q,
    calculate_formative_similarity h2j input_text answer = Some similarity
    ∧ (0 <= similarity <= 1)%Q
    ∧ ((similarity == 1)%Q ↔ h2j input_text = h2j answer)
    ∧ ∃ distance : nat,
        _levenshtein_distance (h2j input_text) (h2j answer) = Some distance
        ∧ (h2j input_text ≠ [] ∨ h2j answer ≠ [] →
           (similarity
            == 1 - inject_Z (Z.of_nat distance)
                   / inject_Z (Z.of_nat (length (h2j input_text)
                                         `max` length (h2j answer))))%Q).
Proof.
  unfold calculate_formative_similarity.
  destruct (LevMetric.levenshtein_distance_bounds_aux (h2j input_text)
              (h2j answer))
    as (d & Hd & Hmax & Hzero).
  rewrite Hd. simpl.
  set (m := (length (h2j input_text) `max` length (h2j answer))%nat) in *.
  destruct (Nat.eqb_spec m 0) as [Hm|Hm].
  - assert (h2j input_text = []) as Ha by (apply nil_length_inv; lia).
    assert (h2j answer = []) as Hb by (apply nil_length_inv; lia).
    exists 1%Q. split; [done|]. split; [lra|]. split.
    + by rewrite Ha, Hb.
    + exists d. split; [done|]. rewrite Ha, Hb. intros [?|?]; done.
  - pose proof (FormativeRange.ratio_bounds d m Hmax ltac:(lia)) as Hr.
    pose proof (FormativeRange.ratio_one d m ltac:(lia)) as Hone.
    eexists. split; [done|].
    destruct (FormativeRange.py_max_0_nonneg _ (proj1 Hr)) as [->|[Hz ->]].
    + split; [done|]. split; [by rewrite Hone, Hzero|].
      exists d. split; [done|]. intros _. reflexivity.
    + split; [lra|]. split.
      * rewrite <- Hzero, <- Hone. split; intros; lra.
      * exists d. split; [done|]. intros _. lra.
Qed.

(** ** The normal form *)

Module NormalForm.
Section WithTables.
Context {U : Unicode}.

Lemma filter_Forall_id (p : N → bool) (text : pystr) :
  Forall (λ c, p c = true) text → List.filter p text = text.
Proof.
  induction 1 as [|c rest Hc _ IH]; simpl; [done|]. by rewrite Hc, IH.
Qed.

Lemma normalize_text_output_aux (text : pystr) :
  Forall (λ c, negb (isspace c) = true) (normalize_text text)
  ∧ Forall (λ c, isword c || hangul_syllable c = true) (normalize_text text).
Proof.
  rewrite NormalizerFacts.normalize_text_filter. unfold normalize_steps.
  split.
  - apply NormalizerFacts.Forall_filter_keep, NormalizerFacts.filter_Forall.
  - apply NormalizerFacts.filter_Forall.
Qed.

End WithTables.
End NormalForm.

(** X5: a normalised string holds no whitespace character, and each of its
    characters is a word character of the regular-expression engine or a
    Hangul syllable. *)
Theorem normalize_text_output `{U : Unicode} (text : pystr) :
  Forall (λ c, isspace c = false ∧ isword c || hangul_syllable c = true)
    (normalize_text text).
Proof.
  rewrite NormalizerFacts.normalize_text_filter. unfold normalize_steps.
  apply Forall_and. split.
  - apply (Forall_impl (λ c, negb (isspace c) = true)).
    + apply NormalizerFacts.Forall_filter_keep, NormalizerFacts.filter_Forall.
    + intros c Hc. by apply negb_true_iff.
  - apply NormalizerFacts.filter_Forall.
Qed.

(** X6: normalising twice is normalising once, for every string whose normal
    form is left unchanged by lowercasing. *)
Theorem normalize_text_idempotent `{U : Unicode} (text : pystr) :
  str_lower (normalize_text text) = normalize_text text →
  normalize_text (normalize_text text) = normalize_text text.
Proof.
  intros Hlower.
  pose proof (NormalForm.normalize_text_output_aux text) as [Hs Hw].
  rewrite (NormalizerFacts.normalize_text_filter (normalize_text text)).
  unfold normalize_steps. rewrite Hlower.
  rewrite (NormalForm.filter_Forall_id _ _ Hs).
  by rewrite (NormalForm.filter_Forall_id _ _ Hw).
Qed.

Lemma normalize_text_idempotent_witness :
  let U := Latin1.tables in
  normalize_text (normalize_text (py " 라이어 Game! "))
  = normalize_text (py " 라이어 Game! ").
Proof.
  intros U. apply (normalize_text_idempotent (py " 라이어 Game! ")).
  reflexivity.
Defined.

(** ** Effects and loops *)

Module EffFacts.

Lemma bind_some {A B} (m : Eff A) (f : A → Eff B) (log log' : list call) (a : A) :
  m log = (Some a, log') → (m ≫= f) log = f a log'.
Proof. intros Hm. unfold mbind, eff_bind. by rewrite Hm. Qed.

Lemma bind_none {A B} (m : Eff A) (f : A → Eff B) (log log' : list call) :
  m log = (None, log') → (m ≫= f) log = (None, log').
Proof. intros Hm. unfold mbind, eff_bind. by rewrite Hm. Qed.

(** A value out of a bind comes from a value of its first computation. *)
Lemma bind_inv {A B} (m : Eff A) (f : A → Eff B) (log log' : list call) (b : B) :
  (m ≫= f) log = (Some b, log') →
  ∃ a log1, m log = (Some a, log1) ∧ f a log1 = (Some b, log').
Proof.
  unfold mbind, eff_bind. destruct (m log) as [[a|] log1]; [|done].
  intros Hf. by exists a, log1.
Qed.

Lemma is_Some_run {A} (r : option A * list call) :
  is_Some r.1 → ∃ a log', r = (Some a, log').
Proof. destruct r as [[a|] log']; intros [x Hx]; [by exists a, log' | done]. Qed.

Lemma lift_inv {A} (o : option A) (log log' : list call) (a : A) :
  lift o log = (Some a, log') → o = Some a ∧ log' = log.
Proof. destruct o; simpl; [|done]. by intros [= -> ->]. Qed.

Lemma for_each_step {X S} (x : X) (rest : list X) (body : X → S → Eff S)
    (st : S) (log : list call) :
  for_each (x :: rest) body st log
  = match body x st log with
    | (Some st', log') => for_each rest body st' log'
    | (None, log') => (None, log')
    end.
Proof. reflexivity. Qed.

(** A loop that ends normally ran every iteration normally, and keeps what
    every normal iteration keeps. *)
Lemma for_each_inv {X S} (P : S → Prop) (Q : X → Prop)
    (body : X → S → Eff S) (xs : list X) :
  (∀ x st log st' log',
     x ∈ xs → P st → body x st log = (Some st', log') → P st' ∧ Q x) →
  ∀ st log st' log',
    P st → for_each xs body st log = (Some st', log') →
    P st' ∧ Forall Q xs.
Proof.
  induction xs as [|x rest IH]; intros Hbody st log st' log' HP Hloop.
  - injection Hloop as <- _. by split.
  - rewrite for_each_step in Hloop.
    destruct (body x st log) as [[st1|] log1] eqn:Hstep; [|done].
    destruct (Hbody x st log st1 log1) as [HP1 HQ]; [left | done..|].
    destruct (IH (λ y s l s' l' Hy, Hbody y s l s' l' (list_elem_of_further _ _ _ Hy))
                st1 log1 st' log' HP1 Hloop) as [HP' HQs].
    split; [done | by constructor].
Qed.

End EffFacts.

(** ** The semantic scorer *)

(** X7: the semantic scorer makes exactly one call, to the embedding model,
    with the two raw texts in one batch, whether it then succeeds or raises;
    it raises exactly when that call raises or returns fewer than two
    vectors; and its value is [(cos + 1) / 2], within [0, 1] when the cosine
    is within [-1, 1]. *)
Theorem calculate_semantic_similarity_call `{E : External}
    (input_text answer : pystr) (log : list call) :
  (calculate_semantic_similarity input_text answer log).2
  = log ++ [Encode [input_text; answer]]
  ∧ (∀ similarity,
       (calculate_semantic_similarity input_text answer log).1 = Some similarity
       ↔ ∃ e0 e1 rest,
           encode [input_text; answer] = Some (e0 :: e1 :: rest)
           ∧ similarity = ((cosine e0 e1 + 1) / 2)%Q)
  ∧ (Reference.cosine_bounded →
     ∀ similarity,
       (calculate_semantic_similarity input_text answer log).1 = Some similarity →
       (0 <= similarity <= 1)%Q).
Proof.
  assert (Hval : ∀ similarity,
    (calculate_semantic_similarity input_text answer log).1 = Some similarity
    ↔ ∃ e0 e1 rest,
        encode [input_text; answer] = Some (e0 :: e1 :: rest)
        ∧ similarity = ((cosine e0 e1 + 1) / 2)%Q).
  { intros similarity.
    unfold calculate_semantic_similarity, mbind, eff_bind, call_encode.
    destruct (encode [input_text; answer]) as [[|e0 [|e1 rest]]|]; simpl.
    - split; [done | by intros (? & ? & ? & ? & ?)].
    - split; [done | by intros (? & ? & ? & ? & ?)].
    - split.
      + intros [= <-]. by exists e0, e1, rest.
      + by intros (? & ? & ? & [= <- <- <-] & ->).
    - split; [done | by intros (? & ? & ? & ? & ?)]. }
  split; [|split; [done|]].
  - unfold calculate_semantic_similarity, mbind, eff_bind, call_encode.
    by destruct (encode [input_text; answer]) as [[|e0 [|e1 rest]]|].
  - intros Hcos similarity Hs. apply Hval in Hs as (e0 & e1 & rest & _ & ->).
    pose proof (Hcos e0 e1) as Hb.
    split.
    + apply Qle_shift_div_l; lra.
    + apply Qle_shift_div_r; lra.
Qed.

(** ** The relational scorer *)

Module RelationalFacts.
Import PyNumFacts EffFacts.
Section WithCapabilities.
Context {E : External}.
Variables input_text answer : pystr.

(** [template] renders to [hypothesis]. *)
Abbreviation renders_to :=
  (λ template hypothesis : pystr,
     str_format template input_text answer = Some hypothesis).

Abbreviation classified :=
  (λ hypothesis : pystr, is_Some (nli_pipeline hypothesis)).

Abbreviation affirmative_body :=
  (λ (template : pystr) (scores : list Q),
     hypothesis ← lift (str_format template input_text answer);
     result ← call_nli hypothesis;
     mret (scores ++ [affirmative_score result])).

Abbreviation contradiction_body :=
  (λ (template : pystr) (scores : list Q),
     hypothesis ← lift (str_format template input_text answer);
     result ← call_nli hypothesis;
     mret (match result.1 with
           | entailment => scores ++ [result.2]
           | _ => scores
           end)).

Lemma affirmative_loop (templates hypotheses : list pystr) :
  Forall2 renders_to templates hypotheses →
  Forall classified hypotheses →
  ∀ scores log,
    for_each templates affirmative_body scores log
    = (Some (scores ++ (Reference.affirmative_of <$> hypotheses)),
       log ++ (Classify <$> hypotheses)).
Proof.
  induction 1 as [|t h ts hs Hfmt _ IH]; intros Hcl scores log.
  - simpl. by rewrite !app_nil_r.
  - apply Forall_cons in Hcl as [[result Hres] Hcl].
    rewrite for_each_step.
    assert (Hstep : affirmative_body t scores log
                    = (Some (scores ++ [affirmative_score result]),
                       log ++ [Classify h])).
    { unfold mbind, eff_bind, call_nli. simpl. rewrite Hfmt. simpl.
      by rewrite Hres. }
    assert (Ha : Reference.affirmative_of h = affirmative_score result)
      by (unfold Reference.affirmative_of; by rewrite Hres).
    rewrite Hstep, (IH Hcl). cbn [fmap list_fmap]. rewrite Ha.
    by rewrite <- !app_assoc.
Qed.

Lemma contradiction_loop (templates hypotheses : list pystr) :
  Forall2 renders_to templates hypotheses →
  Forall classified hypotheses →
  ∀ scores log,
    for_each templates contradiction_body scores log
    = (Some (scores ++ Reference.entailment_confidences hypotheses),
       log ++ (Classify <$> hypotheses)).
Proof.
  induction 1 as [|t h ts hs Hfmt _ IH]; intros Hcl scores log.
  - simpl. by rewrite !app_nil_r.
  - apply Forall_cons in Hcl as [[[l c] Hres] Hcl].
    rewrite for_each_step.
    assert (Hstep : contradiction_body t scores log
                    = (Some (match l with
                             | entailment => scores ++ [c]
                             | _ => scores
                             end),
                       log ++ [Classify h])).
    { unfold mbind, eff_bind, call_nli. simpl. rewrite Hfmt. simpl.
      by rewrite Hres. }
    assert (Hc : Reference.entailment_confidences (h :: hs)
                 = match l with
                   | entailment => c :: Reference.entailment_confidences hs
                   | _ => Reference.entailment_confidences hs
                   end).
    { unfold Reference.entailment_confidences. cbn [omap list_omap].
      rewrite Hres. by destruct l. }
    rewrite Hstep, (IH Hcl), Hc. cbn [fmap list_fmap].
    destruct l; by rewrite <- !app_assoc.
Qed.

(** The value and the log of the scorer when everything renders and is
    classified. *)
Lemma relational_value (templates contradiction_templates : list pystr)
    (hypotheses contradiction_hypotheses : list pystr) (log : list call) :
  Forall2 renders_to templates hypotheses →
  Forall2 renders_to contradiction_templates contradiction_hypotheses →
  Forall classified (hypotheses ++ contradiction_hypotheses) →
  calculate_relational_similarity input_text answer templates
    contradiction_templates log
  = (Some (match hypotheses with
           | [] => 0%Q
           | _ :: _ => mean (Reference.affirmative_of <$> hypotheses)
           end,
           match Reference.entailment_confidences contradiction_hypotheses with
           | [] => 0%Q
           | x :: rest => max_by_from id x rest
           end),
     log ++ (Classify <$> (hypotheses ++ contradiction_hypotheses))).
Proof.
  intros Hts Hcts Hcl. apply Forall_app in Hcl as [Hcl1 Hcl2].
  unfold calculate_relational_similarity.
  rewrite (bind_some _ _ _ _ _ (affirmative_loop _ _ Hts Hcl1 [] log)).
  rewrite (bind_some _ _ _ _ _ (contradiction_loop _ _ Hcts Hcl2 [] _)).
  simpl. rewrite fmap_app, <- app_assoc.
  by destruct hypotheses.
Qed.

(** A loop of the scorer ends normally only if each of its templates renders
    and each rendered hypothesis is classified. *)
Lemma loop_needs_all {S} (tail : label * Q → S → S) (templates : list pystr)
    (scores scores' : S) (log log' : list call) :
  for_each templates
    (λ template scores,
       hypothesis ← lift (str_format template input_text answer);
       result ← call_nli hypothesis;
       mret (tail result scores)) scores log
  = (Some scores', log') →
  Forall (λ t, ∃ h, renders_to t h ∧ classified h) templates.
Proof.
  intros Hloop.
  refine (proj2 (for_each_inv (λ _, True) _ _ templates _ scores log
                   scores' log' I Hloop)).
  intros t st l st' l' _ _ Hbody. split; [done|].
  apply bind_inv in Hbody as (h & l1 & Hfmt & Hbody).
  apply lift_inv in Hfmt as [Hfmt ->].
  apply bind_inv in Hbody as (result & l2 & Hcall & _).
  unfold call_nli in Hcall. injection Hcall as Hres _.
  exists h. split; [done | by exists result].
Qed.

Lemma all_render (templates : list pystr) :
  Forall (λ t, ∃ h, renders_to t h ∧ classified h) templates →
  ∃ hypotheses,
    Forall2 renders_to templates hypotheses ∧ Forall classified hypotheses.
Proof.
  induction 1 as [|t ts (h & Hfmt & Hcl) _ (hs & Hr & Hc)].
  - by exists [].
  - exists (h :: hs). split; by constructor.
Qed.

Lemma defined_needs_all (templates contradiction_templates : list pystr)
    (log : list call) :
  is_Some (calculate_relational_similarity input_text answer templates
             contradiction_templates log).1 →
  Forall (λ t, ∃ h, renders_to t h ∧ classified h)
    (templates ++ contradiction_templates).
Proof.
  intros [rc Hrc].
  destruct (calculate_relational_similarity _ _ _ _ _) as [o log'] eqn:Hcalc.
  simpl in Hrc. subst o. unfold calculate_relational_similarity in Hcalc.
  apply bind_inv in Hcalc as (scores & log1 & Hloop1 & Hcalc).
  apply bind_inv in Hcalc as (cscores & log2 & Hloop2 & _).
  apply Forall_app. split.
  - by eapply (loop_needs_all
                 (λ result scores, scores ++ [affirmative_score result])).
  - by eapply (loop_needs_all
                 (λ result scores,
                    match result.1 with
                    | entailment => scores ++ [result.2]
                    | _ => scores
                    end)).
Qed.

Lemma Qsum_bounds (xs : list Q) :
  Forall (λ x, (0 <= x <= 1)%Q) xs →
  (0 <= Qsum xs <= inject_Z (Z.of_nat (length xs)))%Q.
Proof.
  induction 1 as [|x xs Hx _ IH].
  - split; by vm_compute.
  - unfold Qsum in *. cbn [foldr length].
    rewrite Nat2Z.inj_succ, <- Z.add_1_r, inject_Z_plus.
    change (inject_Z 1) with 1%Q. lra.
Qed.

Lemma mean_bounds (x : Q) (xs : list Q) :
  Forall (λ x, (0 <= x <= 1)%Q) (x :: xs) → (0 <= mean (x :: xs) <= 1)%Q.
Proof.
  intros Hall. pose proof (Qsum_bounds _ Hall) as Hsum. unfold mean.
  assert (Hn : (0 < inject_Z (Z.of_nat (length (x :: xs))))%Q).
  { change 0%Q with (inject_Z 0). rewrite <- Zlt_Qlt. simpl. lia. }
  split.
  - apply Qle_shift_div_l; [done | lra].
  - apply Qle_shift_div_r; [done | lra].
Qed.

Lemma max_by_from_elem (x : Q) (rest : list Q) :
  max_by_from id x rest ∈ x :: rest.
Proof.
  destruct (max_by_from_first id rest x) as (i & Hi & _).
  by eapply list_elem_of_lookup_2.
Qed.

(** The two scores lie in [0, 1] when the confidences do. *)
Lemma range_of_value (templates contradiction_templates : list pystr)
    (log log' : list call) (relation_score contradiction_score : Q) :
  Reference.classifier_bounded →
  calculate_relational_similarity input_text answer templates
    contradiction_templates log
  = (Some (relation_score, contradiction_score), log') →
  (0 <= relation_score <= 1)%Q ∧ (0 <= contradiction_score <= 1)%Q.
Proof.
  intros Hb Hcalc.
  assert (Hall : Forall (λ t, ∃ h, renders_to t h ∧ classified h)
                   (templates ++ contradiction_templates)).
  { apply defined_needs_all with log. rewrite Hcalc. by eexists. }
  apply Forall_app in Hall as [H1 H2].
  apply all_render in H1 as (hs & Hr1 & Hc1).
  apply all_render in H2 as (chs & Hr2 & Hc2).
  rewrite (relational_value _ _ hs chs) in Hcalc;
    [|done|done|by apply Forall_app].
  injection Hcalc as <- <- _. split.
  - destruct hs as [|h hs]; [lra|].
    apply mean_bounds.
    change (Forall (λ x, (0 <= x <= 1)%Q)
              (Reference.affirmative_of <$> (h :: hs))).
    apply Forall_fmap, Forall_forall. intros h' _. simpl.
    unfold Reference.affirmative_of.
    destruct (nli_pipeline h') as [[lbl c]|] eqn:Hres; [|lra].
    specialize (Hb h' (lbl, c) Hres). simpl in Hb.
    unfold affirmative_score. destruct lbl; simpl; lra.
  - assert (Hconf : Forall (λ x, (0 <= x <= 1)%Q)
                      (Reference.entailment_confidences chs)).
    { unfold Reference.entailment_confidences. apply Forall_forall.
      intros c Hc. apply list_elem_of_omap in Hc as (h' & _ & Hc).
      destruct (nli_pipeline h') as [[lbl c']|] eqn:Hres; [|done].
      specialize (Hb h' (lbl, c') Hres). simpl in Hb.
      destruct lbl; simplify_eq. done. }
    destruct (Reference.entailment_confidences chs) as [|x rest]; [lra|].
    rewrite Forall_forall in Hconf. apply Hconf.
    apply max_by_from_elem.
Qed.

End WithCapabilities.
End RelationalFacts.

(** X8: when every template renders and every rendered hypothesis is
    classified, the relational score is the mean of the per-template scores
    (0 for an empty template list), the contradiction score is the greatest
    confidence among the contradiction hypotheses labelled entailment (0 when
    there is none), and the classifier is called once per template, the
    affirmative templates first, each list in its order. *)
Theorem calculate_relational_similarity_value `{E : External}
    (input_text answer : pystr)
    (templates contradiction_templates : list pystr)
    (hypotheses contradiction_hypotheses : list pystr) (log : list call) :
  Forall2 (λ t h, str_format t input_text answer = Some h)
    templates hypotheses →
  Forall2 (λ t h, str_format t input_text answer = Some h)
    contradiction_templates contradiction_hypotheses →
  Forall (λ h, is_Some (nli_pipeline h))
    (hypotheses ++ contradiction_hypotheses) →
  calculate_relational_similarity input_text answer templates
    contradiction_templates log
  = (Some (match hypotheses with
           | [] => 0%Q
           | _ :: _ => mean (Reference.affirmative_of <$> hypotheses)
           end,
           match Reference.entailment_confidences contradiction_hypotheses with
           | [] => 0%Q
           | x :: rest => max_by_from id x rest
           end),
     log ++ (Classify <$> (hypotheses ++ contradiction_hypotheses))).
Proof. apply RelationalFacts.relational_value. Qed.

Lemma calculate_relational_similarity_value_witness :
  let E := Mock.external Mock.part_or_result in
  calculate_relational_similarity (py "a") (py "b")
    [py "{input}+{answer}"; py "{answer}의 결과"]
    [py "{input}의 일부분"; py "{answer}!"] []
  = (Some (match [py "a+b"; py "b의 결과"] with
           | [] => 0%Q
           | _ :: _ =>
             mean (Reference.affirmative_of <$> [py "a+b"; py "b의 결과"])
           end,
           match Reference.entailment_confidences [py "a의 일부분"; py "b!"] with
           | [] => 0%Q
           | x :: rest => max_by_from id x rest
           end),
     [] ++ (Classify <$> ([py "a+b"; py "b의 결과"]
                          ++ [py "a의 일부분"; py "b!"]))).
Proof.
  intros E.
  apply (calculate_relational_similarity_value (py "a") (py "b")).
  - repeat constructor.
  - repeat constructor.
  - repeat (constructor; [by eexists|]). constructor.
Defined.

(** X9: the relational scorer recovers from nothing: it returns a value
    exactly when every affirmative and every contradiction template renders
    and every rendered hypothesis is classified; one failure makes the whole
    call raise. *)
Theorem calculate_relational_similarity_defined `{E : External}
    (input_text answer : pystr)
    (templates contradiction_templates : list pystr) (log : list call) :
  is_Some (calculate_relational_similarity input_text answer templates
             contradiction_templates log).1
  ↔ Forall (λ t, ∃ h, str_format t input_text answer = Some h
                      ∧ is_Some (nli_pipeline h))
      (templates ++ contradiction_templates).
Proof.
  split.
  - intros [rc Hrc].
    destruct (calculate_relational_similarity _ _ _ _ _) as [o log'] eqn:Hcalc.
    simpl in Hrc. subst o. unfold calculate_relational_similarity in Hcalc.
    apply EffFacts.bind_inv in Hcalc as (scores & log1 & Hloop1 & Hcalc).
    apply EffFacts.bind_inv in Hcalc as (cscores & log2 & Hloop2 & _).
    apply Forall_app. split.
    + by eapply (RelationalFacts.loop_needs_all input_text answer
                   (λ result scores, scores ++ [affirmative_score result])).
    + by eapply (RelationalFacts.loop_needs_all input_text answer
                   (λ result scores,
                      match result.1 with
                      | entailment => scores ++ [result.2]
                      | _ => scores
                      end)).
  - intros Hall. apply Forall_app in Hall as [H1 H2].
    apply RelationalFacts.all_render in H1 as (hs & Hr1 & Hc1).
    apply RelationalFacts.all_render in H2 as (chs & Hr2 & Hc2).
    rewrite (RelationalFacts.relational_value input_text answer _ _ hs chs);
      [by eexists | done | done | by apply Forall_app].
Qed.

(** X10: when the classifier's confidences lie in [0, 1], so do the
    relational score and the contradiction score. *)
Theorem calculate_relational_similarity_range `{E : External}
    (input_text answer : pystr)
    (templates contradiction_templates : list pystr) (log log' : list call)
    (relation_score contradiction_score : Q) :
  Reference.classifier_bounded →
  calculate_relational_similarity input_text answer templates
    contradiction_templates log
  = (Some (relation_score, contradiction_score), log') →
  (0 <= relation_score <= 1)%Q ∧ (0 <= contradiction_score <= 1)%Q.
Proof.
  intros Hb Hcalc.
  assert (Hall : Forall (λ t, ∃ h, str_format t input_text answer = Some h
                                   ∧ is_Some (nli_pipeline h))
                   (templates ++ contradiction_templates)).
  { apply RelationalFacts.defined_needs_all with log.
    rewrite Hcalc. by eexists. }
  apply Forall_app in Hall as [H1 H2].
  apply RelationalFacts.all_render in H1 as (hs & Hr1 & Hc1).
  apply RelationalFacts.all_render in H2 as (chs & Hr2 & Hc2).
  rewrite (RelationalFacts.relational_value input_text answer _ _ hs chs)
    in Hcalc; [|done|done|by apply Forall_app].
  injection Hcalc as <- <- _. split.
  - destruct hs as [|h hs]; [lra|].
    apply RelationalFacts.mean_bounds.
    change (Forall (λ x, (0 <= x <= 1)%Q)
              (Reference.affirmative_of <$> (h :: hs))).
    apply Forall_fmap, Forall_forall. intros h' _. simpl.
    unfold Reference.affirmative_of.
    destruct (nli_pipeline h') as [[l c]|] eqn:Hres; [|lra].
    specialize (Hb h' (l, c) Hres). simpl in Hb.
    unfold affirmative_score. destruct l; simpl; lra.
  - assert (Hconf : Forall (λ x, (0 <= x <= 1)%Q)
                      (Reference.entailment_confidences chs)).
    { unfold Reference.entailment_confidences. apply Forall_forall.
      intros c Hc. apply list_elem_of_omap in Hc as (h' & _ & Hc).
      destruct (nli_pipeline h') as [[l c']|] eqn:Hres; [|done].
      specialize (Hb h' (l, c') Hres). simpl in Hb.
      destruct l; simplify_eq. done. }
    destruct (Reference.entailment_confidences chs) as [|x rest]; [lra|].
    rewrite Forall_forall in Hconf. apply Hconf.
    apply RelationalFacts.max_by_from_elem.
Qed.

Lemma calculate_relational_similarity_range_witness :
  let E := Mock.external Mock.all_neutral in
  let out :=
    calculate_relational_similarity (py "친구") (py "배신")
      Config.NLI_TEMPLATES Config.CONTRADICTION_TEMPLATES [] in
  let scores := default (0%Q, 0%Q) out.1 in
  (0 <= scores.1 <= 1)%Q ∧ (0 <= scores.2 <= 1)%Q.
Proof.
  intros E out scores.
  apply (calculate_relational_similarity_range (py "친구") (py "배신")
           Config.NLI_TEMPLATES Config.CONTRADICTION_TEMPLATES [] out.2).
  - intros hypothesis result [= <-]. by vm_compute.
  - by vm_compute.
Defined.

(** ** The classifier: failures and validity *)

Module ClassifierMore.
Import PyNumFacts EffFacts.
Section WithCapabilities.
Context {E : External}.
Variables input_text answer : pystr.

Abbreviation entry_renders_to :=
  (λ (entry : pystr * pystr) (hypothesis : pystr),
     str_format entry.2 input_text answer = Some hypothesis).

(** What an iteration that ends normally has done. *)
Lemma score_entry_inv (entry : pystr * pystr) (scores scores' : list (pystr * Q))
    (log log' : list call) :
  score_entry input_text answer entry scores log = (Some scores', log') →
  ∃ hypothesis score,
    entry_renders_to entry hypothesis
    ∧ log' = log ++ [Classify hypothesis]
    ∧ scores' = dict_set entry.1 score scores
    ∧ (score = 0%Q
       ∨ ∃ result, nli_pipeline hypothesis = Some result
                   ∧ score = entailment_only result).
Proof.
  destruct entry as [rel_type template]. unfold score_entry. intros Hbody.
  apply bind_inv in Hbody as (h & l1 & Hfmt & Hbody).
  apply lift_inv in Hfmt as [Hfmt ->].
  unfold try_except, mbind, eff_bind, call_nli in Hbody.
  destruct (nli_pipeline h) as [result|] eqn:Hres; simpl in Hbody;
    injection Hbody as <- <-; exists h; eexists; repeat split; eauto.
Qed.

(** An iteration ends normally as soon as its template renders, whatever the
    classifier does. *)
Lemma score_entry_total (entry : pystr * pystr) (hypothesis : pystr)
    (scores : list (pystr * Q)) (log : list call) :
  entry_renders_to entry hypothesis →
  ∃ scores',
    score_entry input_text answer entry scores log
    = (Some scores', log ++ [Classify hypothesis]).
Proof.
  destruct entry as [rel_type template]. simpl. intros Hfmt.
  unfold score_entry. rewrite Hfmt.
  unfold lift, try_except, mbind, eff_bind, mret, eff_ret, call_nli.
  destruct (nli_pipeline hypothesis); by eexists.
Qed.

Lemma loop_total (taxonomy : list (pystr * pystr)) (hypotheses : list pystr) :
  Forall2 entry_renders_to taxonomy hypotheses →
  ∀ scores log,
    ∃ scores',
      for_each taxonomy (score_entry input_text answer) scores log
      = (Some scores', log ++ (Classify <$> hypotheses)).
Proof.
  induction 1 as [|e h es hs Hfmt _ IH]; intros scores log.
  - exists scores. simpl. by rewrite app_nil_r.
  - destruct (score_entry_total e h scores log Hfmt) as [s1 Hstep].
    destruct (IH s1 (log ++ [Classify h])) as [s' Hloop].
    exists s'. rewrite for_each_step, Hstep, Hloop.
    by rewrite fmap_cons, <- app_assoc.
Qed.

Lemma renders_hypotheses (taxonomy : list (pystr * pystr)) :
  Spec.renders input_text answer taxonomy
  ↔ ∃ hypotheses, Forall2 entry_renders_to taxonomy hypotheses.
Proof.
  unfold Spec.renders. split.
  - induction 1 as [|e es [h Hh] _ [hs Hhs]].
    + by exists [].
    + exists (h :: hs). by constructor.
  - intros [hs Hhs]. induction Hhs as [|e h es hs Hfmt _ IH];
      constructor; [by exists h | done].
Qed.

(** The classifier proper after its loop adds no call and cannot raise. *)
Lemma analyze_after_loop (taxonomy : list (pystr * pystr))
    (scores : list (pystr * Q)) (log log' : list call) :
  for_each taxonomy (score_entry input_text answer) [] log
  = (Some scores, log') →
  analyze_relationship_type input_text answer taxonomy log
  = (Some (match scores with
           | first :: rest => max_by_from snd first rest
           | [] => (general, 0%Q)
           end), log').
Proof.
  intros Hloop. unfold analyze_relationship_type.
  rewrite (bind_some _ _ _ _ _ Hloop).
  destruct scores as [|first rest]; [done|].
  by destruct (max_by_from snd first rest).
Qed.

Lemma dict_set_nonempty {V} (k : pystr) (v : V) (d : list (pystr * V)) :
  dict_set k v d ≠ [].
Proof. destruct d as [|[k' v'] d]; simpl; [done|]. by case_bool_decide. Qed.

Lemma dict_set_Forall {V} (P : pystr * V → Prop) (k : pystr) (v : V)
    (d : list (pystr * V)) :
  P (k, v) → Forall P d → Forall P (dict_set k v d).
Proof.
  intros Hkv. induction 1 as [|[k' v'] d Hx Hd IH]; simpl.
  - by repeat constructor.
  - case_bool_decide; constructor; done.
Qed.

End WithCapabilities.
End ClassifierMore.

(** X11: the classifier returns a value exactly when every template of the
    taxonomy renders: a failure of the classification model is absorbed, a
    template that does not render is not.  When the templates render, the
    model is called once per entry, in the order of the taxonomy, whether it
    answers or raises. *)
Theorem analyze_relationship_type_defined `{E : External}
    (input_text answer : pystr) (taxonomy : list (pystr * pystr))
    (log : list call) :
  (is_Some (analyze_relationship_type input_text answer taxonomy log).1
   ↔ Spec.renders input_text answer taxonomy)
  ∧ (∀ hypotheses,
       Forall2 (λ entry h, str_format entry.2 input_text answer = Some h)
         taxonomy hypotheses →
       (analyze_relationship_type input_text answer taxonomy log).2
       = log ++ (Classify <$> hypotheses)).
Proof.
  split; [split|].
  - intros [res Hres].
    destruct (analyze_relationship_type _ _ _ _) as [o log'] eqn:Han.
    simpl in Hres. subst o. unfold analyze_relationship_type in Han.
    apply EffFacts.bind_inv in Han as (scores & log1 & Hloop & _).
    refine (proj2 (EffFacts.for_each_inv (λ _, True) _ _ taxonomy _ [] log
                     scores log1 I Hloop)).
    intros e st l st' l' _ _ Hbody. split; [done|].
    apply ClassifierMore.score_entry_inv in Hbody as (h & _ & Hfmt & _).
    by exists h.
  - intros Hr. apply ClassifierMore.renders_hypotheses in Hr as [hs Hhs].
    destruct (ClassifierMore.loop_total input_text answer taxonomy hs Hhs [] log)
      as [scores Hloop].
    rewrite (ClassifierMore.analyze_after_loop _ _ _ _ _ _ Hloop).
    by eexists.
  - intros hs Hhs.
    destruct (ClassifierMore.loop_total input_text answer taxonomy hs Hhs [] log)
      as [scores Hloop].
    by rewrite (ClassifierMore.analyze_after_loop _ _ _ _ _ _ Hloop).
Qed.

(** X12: when the classifier's confidences lie in [0, 1], a result of the
    relationship classifier has its confidence in [0, 1]; its type is a key
    of the taxonomy, or, on the empty taxonomy only, the fallback with
    confidence 0. *)
Theorem analyze_relationship_type_valid `{E : External}
    (input_text answer : pystr) (taxonomy : list (pystr * pystr))
    (log log' : list call) (rel_type : pystr) (confidence : Q) :
  Reference.classifier_bounded →
  analyze_relationship_type input_text answer taxonomy log
  = (Some (rel_type, confidence), log') →
  (0 <= confidence <= 1)%Q
  ∧ (rel_type ∈ taxonomy.*1
     ∨ taxonomy = [] ∧ rel_type = general ∧ confidence = 0%Q).
Proof.
  intros Hb Han.
  pose proof Han as Hloop. unfold analyze_relationship_type in Hloop.
  apply EffFacts.bind_inv in Hloop as (scores & log1 & Hloop & _).
  rewrite (ClassifierMore.analyze_after_loop _ _ _ _ _ _ Hloop) in Han.
  set (P := λ kv : pystr * Q, kv.1 ∈ taxonomy.*1 ∧ (0 <= kv.2 <= 1)%Q).
  assert (Hstep : ∀ e st l st' l',
    e ∈ taxonomy → Forall P st →
    score_entry input_text answer e st l = (Some st', l') →
    Forall P st' ∧ st' ≠ []).
  { intros e st l st' l' He Hst Hbody.
    apply ClassifierMore.score_entry_inv in Hbody
      as (h & v & _ & _ & -> & Hv).
    split; [|apply ClassifierMore.dict_set_nonempty].
    apply ClassifierMore.dict_set_Forall; [|done]. split; simpl.
    - apply list_elem_of_fmap. by exists e.
    - destruct Hv as [->|(result & Hres & ->)]; [lra|].
      specialize (Hb h result Hres). destruct result as [lbl c].
      unfold entailment_only. cbn [fst snd] in *. destruct lbl; lra. }
  destruct taxonomy as [|e rest] eqn:Htax.
  - injection Hloop as <- _. injection Han as <- <- _.
    split; [lra | by right].
  - rewrite <- Htax in *. rewrite Htax in Hloop.
    rewrite EffFacts.for_each_step in Hloop.
    destruct (score_entry input_text answer e [] log) as [[s1|] l1] eqn:Hfirst;
      [|done].
    destruct (Hstep e [] log s1 l1) as [HP1 Hne1];
      [rewrite Htax; left | constructor | done |].
    assert (Hinv : Forall P scores ∧ scores ≠ []).
    { destruct rest as [|e2 rest2].
      - by injection Hloop as <- _.
      - destruct (EffFacts.for_each_inv (Forall P) (λ _, True)
                    (score_entry input_text answer) (e2 :: rest2)) with
          (st := s1) (log := l1) (st' := scores) (log' := log1)
          as [HP _]; [|done|done|].
        + intros x st l st' l' Hx Hst Hbody. split; [|done].
          apply (Hstep x st l st' l'); [|done|done].
          rewrite Htax. by right.
        + split; [done|].
          rewrite EffFacts.for_each_step in Hloop.
          destruct (score_entry input_text answer e2 s1 l1)
            as [[s2|] l2] eqn:Hsecond; [|done].
          clear HP. revert s2 l2 Hsecond Hloop.
          assert (Hgrow : ∀ xs st l st' l',
            st ≠ [] →
            for_each xs (score_entry input_text answer) st l = (Some st', l') →
            st' ≠ []).
          { induction xs as [|x xs IHxs]; intros st l st' l' Hst Hl.
            - by injection Hl as <- _.
            - rewrite EffFacts.for_each_step in Hl.
              destruct (score_entry input_text answer x st l)
                as [[sx|] lx] eqn:Hx; [|done].
              apply (IHxs sx lx st' l'); [|done].
              apply ClassifierMore.score_entry_inv in Hx
                as (? & ? & _ & _ & -> & _).
              apply ClassifierMore.dict_set_nonempty. }
          intros s2 l2 Hsecond Hloop.
          apply (Hgrow rest2 s2 l2 scores log1); [|done].
          apply ClassifierMore.score_entry_inv in Hsecond
            as (? & ? & _ & _ & -> & _).
          apply ClassifierMore.dict_set_nonempty. }
    destruct Hinv as [HP Hne].
    destruct scores as [|first more]; [done|].
    injection Han as Hmax _.
    assert (Hin : max_by_from snd first more ∈ first :: more).
    { destruct (PyNumFacts.max_by_from_first snd more first) as (i & Hi & _).
      by eapply list_elem_of_lookup_2. }
    rewrite Forall_forall in HP. specialize (HP _ Hin).
    rewrite Hmax in HP. destruct HP as [Hty Hconf].
    cbn [fst snd] in Hty, Hconf.
    split; [done|]. left. by rewrite Htax.
Qed.

Lemma analyze_relationship_type_valid_witness :
  let E := Mock.external Mock.part_or_result in
  let out :=
    analyze_relationship_type (py "친구") (py "배신")
      Config.RELATIONSHIP_ANALYSIS_TEMPLATES [] in
  let res := default ([], 0%Q) out.1 in
  (0 <= res.2 <= 1)%Q
  ∧ (res.1 ∈ Config.RELATIONSHIP_ANALYSIS_TEMPLATES.*1
     ∨ Config.RELATIONSHIP_ANALYSIS_TEMPLATES = []
       ∧ res.1 = general ∧ res.2 = 0%Q).
Proof.
  intros E out res.
  apply (analyze_relationship_type_valid (py "친구") (py "배신")
           Config.RELATIONSHIP_ANALYSIS_TEMPLATES [] out.2).
  - intros hypothesis result. unfold nli_pipeline. simpl.
    unfold Mock.part_or_result. destruct (_ || _); intros [= <-]; by vm_compute.
  - by vm_compute.
Defined.

(** ** The fusion: definedness, bounds and precision *)

Module FusionMore.
Import PyNumFacts EffFacts.




(** Rounding keeps a value inside bounds that are themselves round. *)
Lemma py_round_between (x lo hi : Q) (n : nat) :
  (py_round lo n == lo)%Q → (py_round hi n == hi)%Q →
  (lo <= x <= hi)%Q → (lo <= py_round x n <= hi)%Q.
Proof.
  intros Hlo Hhi [H1 H2]. split.
  - rewrite <- Hlo. by apply py_round_mono.
  - rewrite <- Hhi. by apply py_round_mono.
Qed.

Lemma py_round_unit (x : Q) :
  (0 <= x <= 1)%Q → (0 <= py_round x 4 <= 1)%Q.
Proof. apply py_round_between; by vm_compute. Qed.

Lemma clip_bounds (x : Q) : (0 <= py_max 0 (py_min 1 x) <= 1)%Q.
Proof. rewrite clip_clamp. apply clamp_bounds. Qed.

Lemma composite_bounds (x : Q) :
  (0 <= py_round (py_max 0 (py_min 1 x) * 100) 2 <= 100)%Q.
Proof.
  apply py_round_between; [by vm_compute | by vm_compute |].
  pose proof (clip_bounds x). lra.
Qed.

Lemma make_breakdown_dom (s r f c : Q) :
  dom (make_breakdown s r f c)
  = ({[k_semantic; k_relational; k_formative; k_contradiction]} : gset pystr).
Proof.
  unfold make_breakdown. rewrite !dom_insert_L, dom_empty_L. set_solver.
Qed.

Lemma make_breakdown_values (P : Q → Prop) (s r f c : Q) :
  P s → P r → P f → P c →
  ∀ k v, make_breakdown s r f c !! k = Some v → P v.
Proof.
  intros Hs Hr Hf Hc k v. unfold make_breakdown.
  rewrite !lookup_insert. repeat case_decide; try (by intros [= <-]).
  all: by rewrite lookup_empty.
Qed.

(** [fuse] raises exactly on a missing weight. *)
Lemma fuse_inv (s r f c : Q) (weights : gmap pystr Q) (log log' : list call)
    (res : Scores) :
  fuse s r f c weights log = (Some res, log') →
  ∃ ws wr wf,
    weights !! k_semantic = Some ws
    ∧ weights !! k_relational = Some wr
    ∧ weights !! k_formative = Some wf
    ∧ log' = log
    ∧ res = {| Similarity.similarity_score :=
                 py_round
                   (py_max 0 (py_min 1 (s * ws + r * wr + f * wf - c * 0.15))
                    * 100) 2;
               Similarity.breakdown :=
                 make_breakdown (py_round s 4) (py_round r 4)
                   (py_round f 4) (py_round c 4) |}.
Proof.
  unfold fuse. intros Hf.
  apply bind_inv in Hf as (ws & l1 & Hws & Hf).
  apply lift_inv in Hws as [Hws ->].
  apply bind_inv in Hf as (wr & l2 & Hwr & Hf).
  apply lift_inv in Hwr as [Hwr ->].
  apply bind_inv in Hf as (wf & l3 & Hwf & Hf).
  apply lift_inv in Hwf as [Hwf ->].
  injection Hf as <- <-. by exists ws, wr, wf.
Qed.

(** The two ways out of [calculate_combined_similarity]. *)
Lemma combined_inv `{U : Unicode} `{E : External} (input_text answer : pystr)
    (weights : gmap pystr Q)
    (nli_templates contradiction_templates : list pystr)
    (log log' : list call) (res : Scores) :
  calculate_combined_similarity input_text answer weights nli_templates
    contradiction_templates log = (Some res, log') →
  (normalize_text input_text = normalize_text answer
   ∧ res = exact_match ∧ log' = log)
  ∨ (normalize_text input_text ≠ normalize_text answer
     ∧ ∃ s r c f log1,
         calculate_semantic_similarity input_text answer log = (Some s, log1)
         ∧ calculate_relational_similarity input_text answer nli_templates
             contradiction_templates log1 = (Some (r, c), log')
         ∧ calculate_formative_similarity h2j (normalize_text input_text)
             (normalize_text answer) = Some f
         ∧ fuse s r f c weights log' = (Some res, log')).
Proof.
  unfold calculate_combined_similarity. case_bool_decide as Hnorm.
  - intros [= <- <-]. by left.
  - intros Hc. right. split; [done|].
    apply bind_inv in Hc as (s & log1 & Hs & Hc).
    apply bind_inv in Hc as ([r c] & log2 & Hr & Hc).
    apply bind_inv in Hc as (f & log3 & Hf & Hc).
    apply lift_inv in Hf as [Hf ->].
    pose proof (fuse_inv _ _ _ _ _ _ _ _ Hc) as (_ & _ & _ & _ & _ & _ & -> & _).
    by exists s, r, c, f, log1.
Qed.

Lemma semantic_range `{E : External} (input_text answer : pystr)
    (log log' : list call) (s : Q) :
  Reference.cosine_bounded →
  calculate_semantic_similarity input_text answer log = (Some s, log') →
  (0 <= s <= 1)%Q.
Proof.
  intros Hcos Hs.
  apply bind_inv in Hs as (embeddings & l1 & _ & Hs).
  apply bind_inv in Hs as (e0 & l2 & _ & Hs).
  apply bind_inv in Hs as (e1 & l3 & _ & Hs).
  injection Hs as <- _. pose proof (Hcos e0 e1). split.
  - apply Qle_shift_div_l; lra.
  - apply Qle_shift_div_r; lra.
Qed.

Lemma formative_range (h2j : pystr → pystr) (a b : pystr) (f : Q) :
  calculate_formative_similarity h2j a b = Some f → (0 <= f <= 1)%Q.
Proof.
  unfold calculate_formative_similarity.
  destruct (LevMetric.levenshtein_distance_bounds_aux (h2j a) (h2j b))
    as (d & Hd & Hmax & _).
  rewrite Hd. simpl.
  destruct (Nat.eqb_spec (length (h2j a) `max` length (h2j b)) 0) as [Hm|Hm].
  - intros [= <-]. lra.
  - intros [= <-].
    pose proof (FormativeRange.ratio_bounds d _ Hmax ltac:(lia)) as Hr.
    destruct (FormativeRange.py_max_0_nonneg _ (proj1 Hr)) as [->|[Hz ->]];
      [done | lra].
Qed.

End FusionMore.

(** X13: [fuse] returns a value exactly when the weight table has the three
    keys (a missing key raises), it calls no model, and its composite lies in
    [0, 100] whatever the signals and the weights are. *)
Theorem fuse_defined_bounded (s r f c : Q) (weights : gmap pystr Q)
    (log : list call) :
  (is_Some (fuse s r f c weights log).1
   ↔ is_Some (weights !! k_semantic) ∧ is_Some (weights !! k_relational)
     ∧ is_Some (weights !! k_formative))
  ∧ (fuse s r f c weights log).2 = log
  ∧ (∀ res, (fuse s r f c weights log).1 = Some res →
       (0 <= Similarity.similarity_score res <= 100)%Q).
Proof.
  split; [split|split].
  - intros [res Hres].
    destruct (fuse s r f c weights log) as [o log'] eqn:Hf. simpl in Hres.
    subst o. apply FusionMore.fuse_inv in Hf
      as (ws & wr & wf & Hws & Hwr & Hwf & _).
    rewrite Hws, Hwr, Hwf. by repeat split.
  - intros ([ws Hws] & [wr Hwr] & [wf Hwf]).
    rewrite (FusionFacts.fuse_value s r f c weights ws wr wf log Hws Hwr Hwf).
    by eexists.
  - unfold fuse, mbind, eff_bind, lift, raise, mret, eff_ret.
    by destruct (weights !! k_semantic), (weights !! k_relational),
      (weights !! k_formative).
  - intros res Hres.
    destruct (fuse s r f c weights log) as [o log'] eqn:Hf. simpl in Hres.
    subst o. apply FusionMore.fuse_inv in Hf
      as (ws & wr & wf & _ & _ & _ & _ & ->).
    apply FusionMore.composite_bounds.
Qed.



(** X15: whatever the models answer, a result of the combined similarity has
    its composite in [0, 100] and a breakdown with exactly the four keys
    semantic, relational, formative and contradiction, on the exact-match
    path as on the general one. *)
Theorem calculate_combined_similarity_shape `{U : Unicode} `{E : External}
    (input_text answer : pystr) (weights : gmap pystr Q)
    (nli_templates contradiction_templates : list pystr)
    (log log' : list call) (res : Scores) :
  calculate_combined_similarity input_text answer weights nli_templates
    contradiction_templates log = (Some res, log') →
  (0 <= Similarity.similarity_score res <= 100)%Q
  ∧ dom (Similarity.breakdown res)
    = ({[k_semantic; k_relational; k_formative; k_contradiction]}
       : gset pystr).
Proof.
  intros Hc.
  apply FusionMore.combined_inv in Hc
    as [(_ & -> & _)|(_ & s & r & c & f & log1 & _ & _ & _ & Hf)].
  - split; [by vm_compute | apply FusionMore.make_breakdown_dom].
  - apply FusionMore.fuse_inv in Hf as (ws & wr & wf & _ & _ & _ & _ & ->).
    split; [apply FusionMore.composite_bounds
           | apply FusionMore.make_breakdown_dom].
Qed.

Lemma calculate_combined_similarity_shape_witness :
  let U := Latin1.tables in
  let E := Mock.external Mock.all_neutral in
  let out :=
    calculate_combined_similarity (py "친구") (py "배신") Config.WEIGHTS
      Config.NLI_TEMPLATES Config.CONTRADICTION_TEMPLATES [] in
  let res := default exact_match out.1 in
  (0 <= Similarity.similarity_score res <= 100)%Q
  ∧ dom (Similarity.breakdown res)
    = ({[k_semantic; k_relational; k_formative; k_contradiction]}
       : gset pystr).
Proof.
  intros U E out res.
  apply (calculate_combined_similarity_shape (py "친구") (py "배신")
           Config.WEIGHTS Config.NLI_TEMPLATES Config.CONTRADICTION_TEMPLATES
           [] out.2).
  by vm_compute.
Defined.

(** X16: when the cosine lies in [-1, 1] and the classifier's confidences in
    [0, 1], every entry of the breakdown of a result lies in [0, 1]. *)
Theorem calculate_combined_similarity_breakdown_range
    `{U : Unicode} `{E : External}
    (input_text answer : pystr) (weights : gmap pystr Q)
    (nli_templates contradiction_templates : list pystr)
    (log log' : list call) (res : Scores) :
  Reference.cosine_bounded →
  Reference.classifier_bounded →
  calculate_combined_similarity input_text answer weights nli_templates
    contradiction_templates log = (Some res, log') →
  ∀ key value,
    Similarity.breakdown res !! key = Some value → (0 <= value <= 1)%Q.
Proof.
  intros Hcos Hcl Hc.
  apply FusionMore.combined_inv in Hc
    as [(_ & -> & _)|(_ & s & r & c & f & log1 & Hs & Hr & Hform & Hf)].
  - apply FusionMore.make_breakdown_values; lra.
  - apply FusionMore.fuse_inv in Hf as (ws & wr & wf & _ & _ & _ & _ & ->).
    assert (Hsb : (0 <= s <= 1)%Q).
    { apply (FusionMore.semantic_range input_text answer log log1 s Hcos Hs). }
    destruct (RelationalFacts.range_of_value input_text answer nli_templates
                contradiction_templates log1 log' r c Hcl Hr) as [Hrb Hcb].
    assert (Hfb : (0 <= f <= 1)%Q)
      by (by apply (FusionMore.formative_range h2j
                      (normalize_text input_text) (normalize_text answer))).
    apply FusionMore.make_breakdown_values;
      by apply FusionMore.py_round_unit.
Qed.

Lemma calculate_combined_similarity_breakdown_range_witness :
  let U := Latin1.tables in
  let E := Mock.external Mock.all_neutral in
  let out :=
    calculate_combined_similarity (py "친구") (py "배신") Config.WEIGHTS
      Config.NLI_TEMPLATES Config.CONTRADICTION_TEMPLATES [] in
  let res := default exact_match out.1 in
  Forall (λ key, ∃ value, Similarity.breakdown res !! key = Some value
                          ∧ (0 <= value <= 1)%Q)
    [k_semantic; k_relational; k_formative; k_contradiction].
Proof.
  intros U E out res.
  pose proof (calculate_combined_similarity_breakdown_range
                (py "친구") (py "배신") Config.WEIGHTS Config.NLI_TEMPLATES
                Config.CONTRADICTION_TEMPLATES [] out.2 res
                ltac:(intros u v; by vm_compute)
                ltac:(intros hypothesis result [= <-]; by vm_compute)
                ltac:(by vm_compute)) as Hrange.
  apply Forall_forall. intros key Hkey.
  destruct (Similarity.breakdown res !! key) as [value|] eqn:Hvalue.
  - exists value. split; [done | by apply (Hrange key)].
  - exfalso.
    repeat (apply elem_of_cons in Hkey as [->|Hkey];
            [by vm_compute in Hvalue|]).
    by apply elem_of_nil in Hkey.
Defined.

(** ** The hint selector: base hints, skipped contexts, detail hints *)

Module HintMore.
Import PyNumFacts PyStrFacts.

Lemma first_reached_none (score : Q) (thresholds : list Z) :
  Forall (λ t, (score < inject_Z t)%Q) thresholds →
  first_reached score thresholds = None.
Proof.
  induction 1 as [|t rest Ht _ IH]; simpl; [done|].
  by rewrite (proj2 (Qgeb_lt _ _) Ht).
Qed.

(** In a descending list, the scan stops at the greatest threshold that the
    score reaches. *)
Lemma first_reached_greatest (score : Q) (thresholds : list Z) (k : Z) :
  StronglySorted (flip Z.le) thresholds →
  k ∈ thresholds →
  (inject_Z k <= score)%Q →
  (∀ k', k' ∈ thresholds → (inject_Z k' <= score)%Q → k' ≤ k) →
  first_reached score thresholds = Some k.
Proof.
  induction 1 as [|t rest _ IH Hle]; intros Hin Hk Hmax.
  - by apply elem_of_nil in Hin.
  - simpl. destruct (Qgeb score (inject_Z t)) eqn:Hcmp.
    + apply Qgeb_ge in Hcmp.
      assert (t ≤ k) by (apply Hmax; [left | done]).
      apply elem_of_cons in Hin as [->|Hin]; [done|].
      rewrite Forall_forall in Hle. specialize (Hle k Hin).
      unfold flip in Hle. f_equal. lia.
    + apply Qgeb_lt in Hcmp.
      apply elem_of_cons in Hin as [->|Hin]; [lra|].
      apply IH; [done | done |].
      intros k' Hk' Hle'. apply Hmax; [by right | done].
Qed.

Lemma thresholds_descending_sorted (self : HintGenerator) :
  StronglySorted (flip Z.le) (thresholds_descending self).
Proof.
  unfold thresholds_descending.
  apply Sorted_StronglySorted; [intros x y z; unfold flip; lia|].
  apply Sorted_reverse, Sorted_merge_sort. apply _.
Qed.

(** The contextual hint is skipped on an absent or empty type, a confidence
    below 0.3, a score below 15, or a type without templates. *)
Lemma contextual_hint_skipped (self : HintGenerator) (user_input : pystr)
    (score : Q) (relationship_type : option pystr) (confidence : Q) :
  relationship_type = None ∨ relationship_type = Some []
  ∨ (confidence < 0.3)%Q ∨ (score < 15)%Q
  ∨ (∃ ty, relationship_type = Some ty
           ∧ default ∅ (contextual_templates self !! ty) = ∅) →
  _generate_contextual_hint self user_input score relationship_type confidence
  = [].
Proof.
  unfold _generate_contextual_hint.
  intros [->|[->|[Hc|[Hs|(ty & -> & Ht)]]]]; [done | done | | |].
  - destruct relationship_type as [ty|]; [|done].
    by rewrite (proj2 (Qltb_lt _ _) Hc), orb_true_r.
  - destruct relationship_type as [ty|]; [|done].
    destruct (_ || _); [done|]. by rewrite (proj2 (Qltb_lt _ _) Hs).
  - destruct (_ || _); [done|]. destruct (Qltb score 15); [done|].
    by rewrite Ht, bool_decide_eq_true_2.
Qed.

(** The celebratory literal, a non-empty contextual hint or a configured
    base hint: the three ways to a hint. *)
Lemma generate_hint_some_nonempty (self : HintGenerator) (score : Q)
    (breakdown : gmap pystr Q) (user_input answer : pystr)
    (relationship_type : option pystr) (confidence : Q) :
  (0 <= score)%Q →
  is_Some (hint_thresholds self !! 0) →
  map_Forall (λ _ base_hint, base_hint ≠ []) (hint_thresholds self) →
  ∃ hint,
    generate_hint self score breakdown user_input answer relationship_type
      confidence = Some hint
    ∧ hint ≠ [].
Proof.
  intros Hpos H0 Hne. unfold generate_hint.
  destruct (Qeq_bool score 100); [by eexists|].
  destruct (truthy (_generate_contextual_hint _ _ _ _ _)) eqn:Hctx.
  - apply truthy_true in Hctx.
    destruct (_ && _); eexists; (split; [done|]); [|done].
    by apply app_nonempty_l.
  - destruct (HintFacts.get_base_hint_some self score Hpos H0)
      as (k & v & Hbase & Hv).
    rewrite Hbase. simpl. specialize (Hne k v Hv). simpl in Hne.
    destruct (truthy (_get_detail_hint _ _ _)); eexists;
      (split; [done|]); [|done].
    by apply app_nonempty_l.
Qed.

End HintMore.

(** X17: the base hint is the one configured for the greatest threshold that
    the score reaches. *)
Theorem get_base_hint_greatest (self : HintGenerator) (score : Q) (k : Z)
    (base_hint : pystr) :
  hint_thresholds self !! k = Some base_hint →
  (inject_Z k <= score)%Q →
  (∀ k', is_Some (hint_thresholds self !! k') →
         (inject_Z k' <= score)%Q → k' ≤ k) →
  _get_base_hint self score = Some base_hint.
Proof.
  intros Hk Hle Hmax. unfold _get_base_hint.
  rewrite (HintMore.first_reached_greatest score _ k); [done | | | done |].
  - apply HintMore.thresholds_descending_sorted.
  - apply HintFacts.thresholds_descending_elem. by eexists.
  - intros k' Hk'. apply Hmax. by apply HintFacts.thresholds_descending_elem.
Qed.

Lemma get_base_hint_greatest_witness :
  _get_base_hint Config.hint_generator 79.99
  = Some (py "비슷한 방향이에요. 더 구체적으로 표현해보세요.").
Proof.
  apply (get_base_hint_greatest Config.hint_generator 79.99%Q 60).
  - reflexivity.
  - by vm_compute.
  - intros k' [v Hv] Hle. apply elem_of_map_to_list in Hv.
    vm_compute map_to_list in Hv.
    repeat (apply elem_of_cons in Hv as [[= -> _]|Hv]); try lia;
      try (by vm_compute in Hle).
    by apply elem_of_nil in Hv.
Defined.

(** X18: when the score is below every configured threshold (in particular
    when the table is empty), the base hint is the lookup of the key 0: the
    hint configured at 0 for a negative score, and a raised [KeyError] for a
    non-negative one. *)
Theorem get_base_hint_below_all (self : HintGenerator) (score : Q) :
  (∀ k, is_Some (hint_thresholds self !! k) → (score < inject_Z k)%Q) →
  _get_base_hint self score = hint_thresholds self !! 0
  ∧ ((0 <= score)%Q → _get_base_hint self score = None).
Proof.
  intros Hall. unfold _get_base_hint.
  rewrite HintMore.first_reached_none.
  - split; [done|]. intros Hpos.
    destruct (hint_thresholds self !! 0) as [v|] eqn:H0; [|done].
    specialize (Hall 0 ltac:(by eexists)). change (inject_Z 0) with 0%Q in Hall.
    lra.
  - apply Forall_forall. intros k Hk. apply Hall.
    by apply HintFacts.thresholds_descending_elem.
Qed.

Lemma get_base_hint_below_all_witness :
  let self :=
    {| hint_thresholds := <[20 := py "b"]> (<[40 := py "a"]> ∅);
       contextual_templates := ∅;
       detail_suffixes := ∅ |} in
  _get_base_hint self 10 = hint_thresholds self !! 0
  ∧ ((0 <= 10)%Q → _get_base_hint self 10 = None).
Proof.
  intros self. apply (get_base_hint_below_all self 10%Q).
  intros k [v Hv]. apply elem_of_map_to_list in Hv.
  vm_compute map_to_list in Hv.
  repeat (apply elem_of_cons in Hv as [[= -> _]|Hv]); try (by vm_compute).
  by apply elem_of_nil in Hv.
Defined.

(** X19: without an answer of 100, a missing or empty relation type, a
    confidence below 0.3, a score below 15 or a type that has no templates
    leaves the selector with the base hint of the score, followed by a space
    and the detail hint when there is one; a missing base hint raises. *)
Theorem generate_hint_without_context (self : HintGenerator) (score : Q)
    (breakdown : gmap pystr Q) (user_input answer : pystr)
    (relationship_type : option pystr) (confidence : Q) :
  relationship_type = None ∨ relationship_type = Some []
  ∨ (confidence < 0.3)%Q ∨ (score < 15)%Q
  ∨ (∃ ty, relationship_type = Some ty
           ∧ default ∅ (contextual_templates self !! ty) = ∅) →
  ¬ (score == 100)%Q →
  generate_hint self score breakdown user_input answer relationship_type
    confidence
  = (base_hint ← _get_base_hint self score;
     let detail_hint := _get_detail_hint self breakdown score in
     Some (if truthy detail_hint
           then base_hint ++ py " " ++ detail_hint else base_hint)).
Proof.
  intros Hskip Hne.
  rewrite HintFacts.generate_hint_compose.
  - simpl. rewrite (HintMore.contextual_hint_skipped _ _ _ _ _ Hskip). simpl.
    destruct (_get_base_hint self score); [|done]. simpl.
    by destruct (truthy _).
  - destruct (Qeq_bool score 100) eqn:E; [|done].
    by apply Qeq_bool_iff in E.
Qed.

Lemma generate_hint_without_context_witness :
  let self := Config.hint_generator in
  let breakdown := make_breakdown 0.9 0.2 0.1 0 in
  generate_hint self 70 breakdown (py "친구") (py "배신")
    (Some (py "사람관계")) 0.2
  = (base_hint ← _get_base_hint self 70;
     let detail_hint := _get_detail_hint self breakdown 70 in
     Some (if truthy detail_hint
           then base_hint ++ py " " ++ detail_hint else base_hint)).
Proof.
  intros self breakdown.
  apply (generate_hint_without_context self 70%Q breakdown).
  - right. right. left. by vm_compute.
  - by vm_compute.
Defined.

Module DetailFacts.
Import PyNumFacts.

(** The signal that [max] picks among the three, by name. *)
Lemma dominant_semantic (semantic relational formative : Q) :
  (relational <= semantic)%Q → (formative <= semantic)%Q →
  max_by_from snd (k_semantic, semantic)
    [(k_relational, relational); (k_formative, formative)]
  = (k_semantic, semantic).
Proof.
  intros Hr Hf. cbn [max_by_from snd].
  rewrite (proj2 (Qltb_ge semantic relational) Hr). cbn [snd].
  by rewrite (proj2 (Qltb_ge semantic formative) Hf).
Qed.

Lemma dominant_relational (semantic relational formative : Q) :
  (semantic < relational)%Q → (formative <= relational)%Q →
  max_by_from snd (k_semantic, semantic)
    [(k_relational, relational); (k_formative, formative)]
  = (k_relational, relational).
Proof.
  intros Hs Hf. cbn [max_by_from snd].
  rewrite (proj2 (Qltb_lt semantic relational) Hs). cbn [snd].
  by rewrite (proj2 (Qltb_ge relational formative) Hf).
Qed.

Lemma dominant_formative (semantic relational formative : Q) :
  (semantic < formative)%Q → (relational < formative)%Q →
  max_by_from snd (k_semantic, semantic)
    [(k_relational, relational); (k_formative, formative)]
  = (k_formative, formative).
Proof.
  intros Hs Hr. cbn [max_by_from snd].
  destruct (Qltb semantic relational); cbn [snd].
  - by rewrite (proj2 (Qltb_lt relational formative) Hr).
  - by rewrite (proj2 (Qltb_lt semantic formative) Hs).
Qed.

(** The detail hint below the contradiction gate and from a score of 20. *)
Lemma detail_hint_open (self : HintGenerator) (breakdown : gmap pystr Q)
    (score : Q) :
  (default 0 (breakdown !! k_contradiction) <= 0.6)%Q →
  (20 <= score)%Q →
  _get_detail_hint self breakdown score
  = let semantic := default 0%Q (breakdown !! k_semantic) in
    let relational := default 0%Q (breakdown !! k_relational) in
    let formative := default 0%Q (breakdown !! k_formative) in
    let component_name :=
      (max_by_from snd (k_semantic, semantic)
         [(k_relational, relational); (k_formative, formative)]).1 in
    if bool_decide (component_name = k_semantic) && Qgtb semantic 0.6 then
      if Qltb relational 0.3
      then default semantic_default (detail_suffixes self !! k_semantic_high)
      else []
    else if bool_decide (component_name = k_relational) && Qgtb relational 0.6
    then
      if Qltb semantic 0.3
      then default relational_default (detail_suffixes self !! k_relational_high)
      else []
    else if bool_decide (component_name = k_formative) && Qgtb formative 0.7
    then default formative_default (detail_suffixes self !! k_formative_high)
    else [].
Proof.
  intros Hc Hs. unfold _get_detail_hint.
  unfold Qgtb at 1. rewrite (proj2 (Qltb_ge _ _) Hc).
  by rewrite (proj2 (Qltb_ge _ _) Hs).
Qed.

End DetailFacts.

(** X20: with a contradiction of at most 0.6, no detail hint is given when
    the score is below 20, nor when the semantic and relational signals are
    at most 0.6 and the formative signal at most 0.7. *)
Theorem get_detail_hint_silent (self : HintGenerator)
    (breakdown : gmap pystr Q) (score : Q) :
  (default 0 (breakdown !! k_contradiction) <= 0.6)%Q →
  (score < 20)%Q
  ∨ (default 0 (breakdown !! k_semantic) <= 0.6)%Q
    ∧ (default 0 (breakdown !! k_relational) <= 0.6)%Q
    ∧ (default 0 (breakdown !! k_formative) <= 0.7)%Q →
  _get_detail_hint self breakdown score = [].
Proof.
  intros Hc [Hs|(Hsem & Hrel & Hform)].
  - unfold _get_detail_hint. unfold Qgtb at 1.
    rewrite (proj2 (PyNumFacts.Qltb_ge _ _) Hc).
    by rewrite (proj2 (PyNumFacts.Qltb_lt _ _) Hs).
  - destruct (Qlt_le_dec score 20) as [Hlt|Hge].
    + unfold _get_detail_hint. unfold Qgtb at 1.
      rewrite (proj2 (PyNumFacts.Qltb_ge _ _) Hc).
      by rewrite (proj2 (PyNumFacts.Qltb_lt _ _) Hlt).
    + rewrite DetailFacts.detail_hint_open by done. simpl. unfold Qgtb.
      rewrite (proj2 (PyNumFacts.Qltb_ge _ _) Hsem).
      rewrite (proj2 (PyNumFacts.Qltb_ge _ _) Hrel).
      rewrite (proj2 (PyNumFacts.Qltb_ge _ _) Hform).
      by rewrite !andb_false_r.
Qed.

Lemma get_detail_hint_silent_witness :
  _get_detail_hint Config.hint_generator (make_breakdown 0.6 0.5 0.7 0.6) 90
  = [].
Proof.
  apply get_detail_hint_silent.
  - by vm_compute.
  - right. repeat split; by vm_compute.
Defined.

(** X21: with a contradiction of at most 0.6 and a score of at least 20, only
    the greatest of the three signals can give a detail hint, the semantic
    one winning a tie and the relational one winning a tie with the formative
    one: the semantic suffix needs semantic > 0.6 and relational < 0.3, the
    relational suffix relational > 0.6 and semantic < 0.3, and the formative
    suffix a formative signal above 0.7 that is strictly the greatest. *)
Theorem get_detail_hint_dominant (self : HintGenerator)
    (breakdown : gmap pystr Q) (score : Q) :
  let semantic := default 0%Q (breakdown !! k_semantic) in
  let relational := default 0%Q (breakdown !! k_relational) in
  let formative := default 0%Q (breakdown !! k_formative) in
  (default 0 (breakdown !! k_contradiction) <= 0.6)%Q →
  (20 <= score)%Q →
  ((relational <= semantic)%Q → (formative <= semantic)%Q →
   _get_detail_hint self breakdown score
   = if Qgtb semantic 0.6 && Qltb relational 0.3
     then default semantic_default (detail_suffixes self !! k_semantic_high)
     else [])
  ∧ ((semantic < relational)%Q → (formative <= relational)%Q →
     _get_detail_hint self breakdown score
     = if Qgtb relational 0.6 && Qltb semantic 0.3
       then default relational_default
              (detail_suffixes self !! k_relational_high)
       else [])
  ∧ ((semantic < formative)%Q → (relational < formative)%Q →
     _get_detail_hint self breakdown score
     = if Qgtb formative 0.7
       then default formative_default
              (detail_suffixes self !! k_formative_high)
       else []).
Proof.
  intros semantic relational formative Hc Hs.
  rewrite DetailFacts.detail_hint_open by done.
  fold semantic relational formative. cbv zeta.
  split; [|split].
  - intros Hr Hf. rewrite DetailFacts.dominant_semantic by done.
    cbn [fst]. rewrite (bool_decide_eq_true_2 (k_semantic = k_semantic)) by done.
    rewrite ?(bool_decide_eq_false_2 (k_semantic = _)) by done.
    cbn [andb]. by destruct (Qgtb semantic 0.6), (Qltb relational 0.3).
  - intros Hr Hf. rewrite DetailFacts.dominant_relational by done.
    cbn [fst]. rewrite (bool_decide_eq_true_2 (k_relational = k_relational)) by done.
    rewrite ?(bool_decide_eq_false_2 (k_relational = _)) by done.
    cbn [andb]. by destruct (Qgtb relational 0.6), (Qltb semantic 0.3).
  - intros Hr Hf. rewrite DetailFacts.dominant_formative by done.
    cbn [fst]. rewrite (bool_decide_eq_true_2 (k_formative = k_formative)) by done.
    rewrite ?(bool_decide_eq_false_2 (k_formative = _)) by done.
    cbn [andb]. by destruct (Qgtb formative 0.7).
Qed.

Lemma get_detail_hint_dominant_witness :
  let self := Config.hint_generator in
  let breakdown := make_breakdown 0.9 0.2 0.9 0 in
  let semantic := default 0%Q (breakdown !! k_semantic) in
  let relational := default 0%Q (breakdown !! k_relational) in
  let formative := default 0%Q (breakdown !! k_formative) in
  ((relational <= semantic)%Q → (formative <= semantic)%Q →
   _get_detail_hint self breakdown 70
   = if Qgtb semantic 0.6 && Qltb relational 0.3
     then default semantic_default (detail_suffixes self !! k_semantic_high)
     else [])
  ∧ ((semantic < relational)%Q → (formative <= relational)%Q →
     _get_detail_hint self breakdown 70
     = if Qgtb relational 0.6 && Qltb semantic 0.3
       then default relational_default
              (detail_suffixes self !! k_relational_high)
       else [])
  ∧ ((semantic < formative)%Q → (relational < formative)%Q →
     _get_detail_hint self breakdown 70
     = if Qgtb formative 0.7
       then default formative_default
              (detail_suffixes self !! k_formative_high)
       else []).
Proof.
  intros self breakdown.
  apply (get_detail_hint_dominant self breakdown 70%Q); by vm_compute.
Defined.

(** A typing-close guess whose meaning is as close gets the semantic suffix,
    not the formative one. *)
Example detail_hint_tie :
  _get_detail_hint Config.hint_generator (make_breakdown 0.9 0.2 0.9 0) 70
  = py "의미적으로 매우 가까워요".
Proof. by vm_compute. Qed.

(** ** Rendering the contextual hint *)

Module RenderFacts.

Lemma starts_with_placeholder_no (c : N) (s : pystr) :
  c ≠ 0x7B%N → starts_with placeholder (c :: s) = false.
Proof.
  intros Hc. unfold placeholder. cbn [starts_with].
  destruct (N.eqb_spec 123 c) as [<-|]; [done | reflexivity].
Qed.

(** Text without an opening brace is copied. *)
Lemma replace_prefix (new prefix rest : pystr) :
  Forall (λ c, c ≠ 0x7B%N) prefix →
  replace placeholder new (prefix ++ rest)
  = prefix ++ replace placeholder new rest.
Proof.
  unfold replace. induction 1 as [|c prefix Hc _ IH]; [done|].
  cbn [app replace_from]. rewrite (starts_with_placeholder_no c _ Hc).
  by rewrite IH.
Qed.

(** The placeholder is replaced by the new text, which is not read again. *)
Lemma replace_at (new rest : pystr) :
  replace placeholder new (placeholder ++ rest)
  = new ++ replace placeholder new rest.
Proof. reflexivity. Qed.

Lemma replace_template (new suffix : pystr) :
  Forall (λ c, c ≠ 0x7B%N) suffix →
  replace placeholder new (placeholder ++ suffix) = new ++ suffix.
Proof.
  intros Hs. rewrite replace_at.
  rewrite <- (app_nil_r suffix) at 1. rewrite (replace_prefix new suffix [] Hs).
  by rewrite app_nil_r.
Qed.

End RenderFacts.

(** X22: for a relation type whose templates all open with the placeholder
    [{input}] and hold no other brace, and which has a medium template, a
    confidence of at least 0.3 and a score of at least 15 give as contextual
    hint the raw guess followed by the rest of one of the templates; the
    guess is inserted as it was typed and is not searched for placeholders. *)
Theorem generate_contextual_hint_render (self : HintGenerator)
    (guess : pystr) (score : Q) (rel_type : pystr) (confidence : Q)
    (templates : gmap pystr pystr) :
  contextual_templates self !! rel_type = Some templates →
  rel_type ≠ [] →
  (0.3 <= confidence)%Q →
  (15 <= score)%Q →
  (∀ level template,
     templates !! level = Some template →
     ∃ suffix, template = placeholder ++ suffix
               ∧ Forall (λ c, c ≠ 0x7B%N) suffix) →
  is_Some (templates !! lv_medium) →
  ∃ level suffix,
    templates !! level = Some (placeholder ++ suffix)
    ∧ _generate_contextual_hint self guess score (Some rel_type) confidence
      = guess ++ suffix.
Proof.
  intros Hty Hne Hconf Hscore Hshape [medium Hmedium].
  unfold _generate_contextual_hint.
  rewrite (proj2 (PyStrFacts.truthy_true _) Hne).
  rewrite (proj2 (PyNumFacts.Qltb_ge _ _) Hconf).
  rewrite (proj2 (PyNumFacts.Qltb_ge _ _) Hscore).
  cbn [negb orb]. rewrite Hty.
  change (default ∅ (Some templates)) with templates.
  rewrite (bool_decide_eq_false_2 (templates = ∅))
    by (intros ->; by rewrite lookup_empty in Hmedium).
  set (hint_level := if _ && _ then lv_high else _).
  assert (Hpick : ∃ level template,
    templates !! level = Some template
    ∧ default (default [] (templates !! lv_medium)) (templates !! hint_level)
      = template).
  { destruct (templates !! hint_level) as [t|] eqn:Hl.
    - by exists hint_level, t.
    - exists lv_medium, medium. by rewrite Hmedium. }
  destruct Hpick as (level & template & Hlevel & ->).
  destruct (Hshape level template Hlevel) as (suffix & -> & Hsuffix).
  exists level, suffix. split; [done|].
  cbn [truthy negb]. by apply RenderFacts.replace_template.
Qed.

Lemma generate_contextual_hint_render_witness :
  ∃ level suffix,
    Config.levels "{input} 사이에서 나타나는 것이에요"
      "{input} 관계에서 발생할 수 있는 일이에요"
      "{input}와/과 관련된 인간관계 개념이에요" !! level
    = Some (placeholder ++ suffix)
    ∧ _generate_contextual_hint Config.hint_generator (py "{input} 친구") 55
        (Some (py "사람관계")) 0.8
      = py "{input} 친구" ++ suffix.
Proof.
  apply generate_contextual_hint_render.
  - reflexivity.
  - by vm_compute.
  - by vm_compute.
  - by vm_compute.
  - intros level template Ht. apply elem_of_map_to_list in Ht.
    vm_compute map_to_list in Ht.
    repeat (apply elem_of_cons in Ht as [[= _ ->]|Ht]);
      try (eexists; split; [reflexivity | compute_done]).
    by apply elem_of_nil in Ht.
  - compute_done.
Defined.

(** A guess that itself reads [{input} 친구] is echoed once. *)
Example contextual_hint_not_rescanned :
  _generate_contextual_hint Config.hint_generator (py "{input} 친구") 55
    (Some (py "사람관계")) 0.8
  = py "{input} 친구 사이에서 나타나는 것이에요".
Proof. by vm_compute. Qed.

(** ** The request handler *)

Module HandlerFacts.
Import EffFacts.
Section WithCapabilities.
Context {U : Unicode} {E : External}.
Variables user_input answer : pystr.

Abbreviation embeds := (Reference.embeds user_input answer).

Lemma semantic_defined (log : list call) :
  embeds →
  ∃ s, calculate_semantic_similarity user_input answer log
       = (Some s, log ++ [Encode [user_input; answer]]).
Proof.
  intros (e0 & e1 & rest & Henc).
  unfold calculate_semantic_similarity, mbind, eff_bind, call_encode.
  rewrite Henc. by eexists.
Qed.

Lemma semantic_inv (log log' : list call) (s : Q) :
  calculate_semantic_similarity user_input answer log = (Some s, log') →
  embeds.
Proof.
  unfold calculate_semantic_similarity, mbind, eff_bind, call_encode,
    Reference.embeds.
  destruct (encode [user_input; answer]) as [[|e0 [|e1 rest]]|]; try done.
  intros _. by exists e0, e1, rest.
Qed.

Lemma formative_defined (h : pystr → pystr) (a b : pystr) :
  ∃ f, calculate_formative_similarity h a b = Some f.
Proof.
  unfold calculate_formative_similarity.
  destruct (LevMetric.levenshtein_distance_bounds_aux (h a) (h b))
    as (d & Hd & _).
  rewrite Hd. simpl. destruct (_ =? _)%nat; by eexists.
Qed.

Lemma analyze_defined (taxonomy : list (pystr * pystr)) (log : list call) :
  Spec.renders user_input answer taxonomy →
  ∃ res log',
    analyze_relationship_type user_input answer taxonomy log
    = (Some res, log').
Proof.
  intros Hr. apply ClassifierMore.renders_hypotheses in Hr as [hs Hhs].
  destruct (ClassifierMore.loop_total user_input answer taxonomy hs Hhs [] log)
    as [scores Hloop].
  rewrite (ClassifierMore.analyze_after_loop _ _ _ _ _ _ Hloop).
  by do 2 eexists.
Qed.

Lemma analyze_inv (taxonomy : list (pystr * pystr)) (log log' : list call)
    (res : pystr * Q) :
  analyze_relationship_type user_input answer taxonomy log
  = (Some res, log') →
  Spec.renders user_input answer taxonomy.
Proof.
  intros Han. unfold analyze_relationship_type in Han.
  apply bind_inv in Han as (scores & log1 & Hloop & _).
  refine (proj2 (for_each_inv (λ _, True) _ _ taxonomy _ [] log
                   scores log1 I Hloop)).
  intros e st l st' l' _ _ Hbody. split; [done|].
  apply ClassifierMore.score_entry_inv in Hbody as (h & _ & Hfmt & _).
  by exists h.
Qed.

(** The configured generator always has a hint for a composite. *)
Lemma configured_hint (score : Q) (breakdown : gmap pystr Q)
    (relationship_type : option pystr) (confidence : Q) :
  (0 <= score)%Q →
  ∃ hint,
    generate_hint Config.hint_generator score breakdown user_input answer
      relationship_type confidence = Some hint
    ∧ hint ≠ [].
Proof.
  intros Hpos. apply HintMore.generate_hint_some_nonempty; [done | |];
    compute_done.
Qed.

(** The handler past the exact-match test. *)
Lemma general_path (log : list call) :
  normalize_text user_input ≠ normalize_text answer →
  Main.calculate_similarity user_input answer log
  = (result ← calculate_combined_similarity user_input answer
                Config.WEIGHTS Config.NLI_TEMPLATES
                Config.CONTRADICTION_TEMPLATES;
     '(relationship_type, relationship_confidence) ←
       analyze_relationship_type user_input answer
         Config.RELATIONSHIP_ANALYSIS_TEMPLATES;
     hint ← lift (generate_hint Config.hint_generator
                    (Similarity.similarity_score result)
                    (Similarity.breakdown result)
                    user_input answer (Some relationship_type)
                    relationship_confidence);
     mret {| Main.similarity_score := Similarity.similarity_score result;
             Main.hint := hint;
             Main.category_match := false;
             Main.breakdown := Similarity.breakdown result |}) log.
Proof.
  intros Hne. unfold Main.calculate_similarity.
  by rewrite bool_decide_eq_false_2.
Qed.

Lemma combined_shape (weights : gmap pystr Q)
    (nli_templates contradiction_templates : list pystr)
    (log log' : list call) (res : Scores) :
  calculate_combined_similarity user_input answer weights nli_templates
    contradiction_templates log = (Some res, log') →
  (0 <= Similarity.similarity_score res <= 100)%Q
  ∧ dom (Similarity.breakdown res)
    = ({[k_semantic; k_relational; k_formative; k_contradiction]}
       : gset pystr).
Proof.
  intros Hc.
  apply FusionMore.combined_inv in Hc
    as [(_ & -> & _)|(_ & s & r & c & f & log1 & _ & _ & _ & Hf)].
  - split; [by vm_compute | apply FusionMore.make_breakdown_dom].
  - apply FusionMore.fuse_inv in Hf as (ws & wr & wf & _ & _ & _ & _ & ->).
    split; [apply FusionMore.composite_bounds
           | apply FusionMore.make_breakdown_dom].
Qed.

End WithCapabilities.
End HandlerFacts.

(** X23: every response of the request handler carries a score in [0, 100],
    a non-empty hint and a breakdown with exactly the four keys; its
    [category_match] is true exactly on the exact-match path, on which no
    model has been called. *)
Theorem calculate_similarity_response `{U : Unicode} `{E : External}
    (user_input answer : pystr) (log log' : list call)
    (response : Main.SimilarityResponse) :
  Main.calculate_similarity user_input answer log = (Some response, log') →
  (0 <= Main.similarity_score response <= 100)%Q
  ∧ Main.hint response ≠ []
  ∧ dom (Main.breakdown response)
    = ({[k_semantic; k_relational; k_formative; k_contradiction]}
       : gset pystr)
  ∧ (Main.category_match response = true
     ↔ normalize_text user_input = normalize_text answer)
  ∧ (normalize_text user_input = normalize_text answer → log' = log).
Proof.
  destruct (decide (normalize_text user_input = normalize_text answer))
    as [Heq|Hne].
  - unfold Main.calculate_similarity. rewrite bool_decide_eq_true_2 by done.
    intros [= <- <-]. simpl.
    split; [by vm_compute|]. split; [done|].
    split; [apply FusionMore.make_breakdown_dom|]. by split.
  - rewrite HandlerFacts.general_path by done. intros Hh.
    apply EffFacts.bind_inv in Hh as (result & log1 & Hres & Hh).
    apply EffFacts.bind_inv in Hh as ([rt rc] & log2 & Han & Hh).
    apply EffFacts.bind_inv in Hh as (hint & log3 & Hhint & Hh).
    apply EffFacts.lift_inv in Hhint as [Hhint ->].
    injection Hh as <- <-. simpl.
    destruct (HandlerFacts.combined_shape _ _ _ _ _ _ _ _ Hres) as [Hb Hd].
    destruct (HandlerFacts.configured_hint user_input answer
                (Similarity.similarity_score result)
                (Similarity.breakdown result) (Some rt) rc (proj1 Hb))
      as (hint' & Hhint' & Hne').
    rewrite Hhint in Hhint'. injection Hhint' as <-.
    split; [done|]. split; [done|]. split; [done|]. split.
    + split; [done | by intros Heq].
    + by intros Heq.
Qed.

Lemma calculate_similarity_response_witness :
  let U := Latin1.tables in
  let E := Mock.external Mock.part_or_result in
  let out := Main.calculate_similarity (py "친구") (py "배신") [] in
  let response :=
    default {| Main.similarity_score := 0; Main.hint := [];
               Main.category_match := true; Main.breakdown := ∅ |} out.1 in
  (0 <= Main.similarity_score response <= 100)%Q
  ∧ Main.hint response ≠ []
  ∧ dom (Main.breakdown response)
    = ({[k_semantic; k_relational; k_formative; k_contradiction]}
       : gset pystr)
  ∧ (Main.category_match response = true
     ↔ normalize_text (py "친구") = normalize_text (py "배신"))
  ∧ (normalize_text (py "친구") = normalize_text (py "배신") → out.2 = []).
Proof.
  intros U E out response.
  apply (calculate_similarity_response (py "친구") (py "배신") [] out.2).
  by vm_compute.
Defined.

(** X24: the request handler answers exactly when the two strings are equal
    after normalisation, or the embedding model returns two vectors, every
    affirmative and contradiction template renders and is classified, and
    every template of the taxonomy renders; in every other case the
    exception reaches the handler's 500 response. *)
Theorem calculate_similarity_defined `{U : Unicode} `{E : External}
    (user_input answer : pystr) (log : list call) :
  is_Some (Main.calculate_similarity user_input answer log).1
  ↔ normalize_text user_input = normalize_text answer
    ∨ (Reference.embeds user_input answer
       ∧ Reference.scores_classified user_input answer
       ∧ Spec.renders user_input answer
           Config.RELATIONSHIP_ANALYSIS_TEMPLATES).
Proof.
  destruct (decide (normalize_text user_input = normalize_text answer))
    as [Heq|Hne].
  - split; [by left|]. intros _.
    unfold Main.calculate_similarity. rewrite bool_decide_eq_true_2 by done.
    by eexists.
  - rewrite HandlerFacts.general_path by done. split.
    + intros Hh. right.
      apply EffFacts.is_Some_run in Hh as (response & log' & Hrun).
      apply EffFacts.bind_inv in Hrun as (result & log1 & Hres & Hrun).
      apply EffFacts.bind_inv in Hrun as ([rt rc] & log2 & Han & _).
      apply FusionMore.combined_inv in Hres
        as [(Heq & _)|(_ & s & r & c & f & l1 & Hs & Hr & _)]; [done|].
      split; [by eapply HandlerFacts.semantic_inv|].
      split; [|by eapply HandlerFacts.analyze_inv].
      apply RelationalFacts.defined_needs_all with l1.
      rewrite Hr. by eexists.
    + intros [Heq|(Hemb & Hsc & Hren)]; [done|].
      destruct (HandlerFacts.semantic_defined user_input answer log Hemb)
        as [s Hs].
      apply Forall_app in Hsc as [H1 H2].
      apply RelationalFacts.all_render in H1 as (hs & Hr1 & Hc1).
      apply RelationalFacts.all_render in H2 as (chs & Hr2 & Hc2).
      pose proof (RelationalFacts.relational_value user_input answer _ _
                    hs chs (log ++ [Encode [user_input; answer]]) Hr1 Hr2
                    ltac:(by apply Forall_app)) as Hr.
      destruct (HandlerFacts.formative_defined h2j
                  (normalize_text user_input) (normalize_text answer))
        as [f Hf].
      pose proof (FusionFacts.calculate_combined_similarity_fuse
                    user_input answer Config.WEIGHTS Config.NLI_TEMPLATES
                    Config.CONTRADICTION_TEMPLATES _ _ f _ log _ _
                    Hne Hs Hr Hf) as Hc.
      rewrite (FusionFacts.fuse_value _ _ _ _ Config.WEIGHTS 0.50 0.35 0.15)
        in Hc by reflexivity.
      rewrite (EffFacts.bind_some _ _ _ _ _ Hc).
      match type of Hc with _ = (Some ?res, ?l) =>
        destruct (HandlerFacts.analyze_defined user_input answer
                    Config.RELATIONSHIP_ANALYSIS_TEMPLATES l Hren)
          as ([rt rc] & log2 & Han);
        destruct (HandlerFacts.configured_hint user_input answer
                    (Similarity.similarity_score res)
                    (Similarity.breakdown res) (Some rt) rc)
          as (hint & Hhint & _);
          [apply FusionMore.composite_bounds|]
      end.
      rewrite (EffFacts.bind_some _ _ _ _ _ Han).
      cbn [Similarity.similarity_score Similarity.breakdown] in Hhint |- *.
      unfold mbind, eff_bind, lift. rewrite Hhint. by eexists.
Qed.

(** X25: with non-negative weights, raising any of the semantic, relational
    and formative signals while the contradiction signal is kept never
    lowers the composite. *)
Theorem fuse_signal_monotone (s1 s2 r1 r2 f1 f2 c : Q)
    (weights : gmap pystr Q) (ws wr wf : Q) (log : list call) :
  weights !! k_semantic = Some ws →
  weights !! k_relational = Some wr →
  weights !! k_formative = Some wf →
  (0 <= ws)%Q → (0 <= wr)%Q → (0 <= wf)%Q →
  (s1 <= s2)%Q → (r1 <= r2)%Q → (f1 <= f2)%Q →
  ∃ res1 res2,
    fuse s1 r1 f1 c weights log = (Some res1, log)
    ∧ fuse s2 r2 f2 c weights log = (Some res2, log)
    ∧ (Similarity.similarity_score res1 <= Similarity.similarity_score res2)%Q.
Proof.
  intros Hs Hr Hf Hws Hwr Hwf Hs12 Hr12 Hf12.
  do 2 eexists. split; [by apply FusionFacts.fuse_value|].
  split; [by apply FusionFacts.fuse_value|]. simpl.
  apply PyNumFacts.py_round_mono.
  apply Qmult_le_compat_r; [|lra].
  apply FusionFacts.clip_mono.
  pose proof (Qmult_le_compat_r s1 s2 ws Hs12 Hws).
  pose proof (Qmult_le_compat_r r1 r2 wr Hr12 Hwr).
  pose proof (Qmult_le_compat_r f1 f2 wf Hf12 Hwf).
  lra.
Qed.

Lemma fuse_signal_monotone_witness :
  ∃ res1 res2,
    fuse 0.8 0.2 0.1 0.3 Config.WEIGHTS [] = (Some res1, [])
    ∧ fuse 0.9 0.2 0.4 0.3 Config.WEIGHTS [] = (Some res2, [])
    ∧ (Similarity.similarity_score res1 <= Similarity.similarity_score res2)%Q.
Proof.
  apply (fuse_signal_monotone 0.8 0.9 0.2 0.2 0.1 0.4 0.3 Config.WEIGHTS
           0.50 0.35 0.15 [])%Q; try reflexivity; by vm_compute.
Defined.
